(** * todo-vibecode: the task list component, embedded and verified

    Two versions of the [App] component are covered:
    - [Local]  : [src/App.jsx], tasks kept in React state and mirrored to
                 [localStorage];
    - [Remote] : the Supabase-backed [App] component, which adds a session,
                 remote requests with optimistic updates, and the
                 login/logout reconciliation effect.

    React state is modelled by explicit state passing: a handler is a
    function on the component state, and [commit] runs the effects whose
    dependencies changed, in the order in which the component declares them. *)

From Stdlib Require Import String Ascii List Bool ZArith NArith Lia.
Import ListNotations.
Open Scope bool_scope.

Set Implicit Arguments.

(** ** JavaScript strings *)

(** A JS string is a sequence of UTF-16 code units. *)
Definition jsstring := list N.

Definition jsstring_eq_dec : forall a b : jsstring, {a = b} + {a <> b} :=
  list_eq_dec N.eq_dec.

Definition jsstring_eqb (a b : jsstring) : bool :=
  if jsstring_eq_dec a b then true else false.

(** ASCII literals, for readable examples. *)
Fixpoint js (s : string) : jsstring :=
  match s with
  | EmptyString => []
  | String c r => N_of_ascii c :: js r
  end.

(** [!s] is [true] exactly for the empty string. *)
Definition truthy (s : jsstring) : bool :=
  match s with [] => false | _ :: _ => true end.

(** ECMAScript [WhiteSpace] and [LineTerminator] code units, the ones
    [String.prototype.trim] strips. *)
Definition is_ws (c : N) : bool :=
  let eq := N.eqb c in
  (eq 9 || eq 10 || eq 11 || eq 12 || eq 13 || eq 32 || eq 160 || eq 5760
   || (N.leb 8192 c && N.leb c 8202)
   || eq 8232 || eq 8233 || eq 8239 || eq 8287 || eq 12288 || eq 65279)%N.

Fixpoint trimStart (s : jsstring) : jsstring :=
  match s with
  | [] => []
  | c :: r => if is_ws c then trimStart r else s
  end.

Definition trimEnd (s : jsstring) : jsstring := rev (trimStart (rev s)).

Definition trim (s : jsstring) : jsstring := trimEnd (trimStart s).

(** Empty or made of white space only. *)
Definition blank (s : jsstring) : bool := forallb is_ws s.

(** ASCII case folding and substring search, for [/created_at/i.test(m)].
    Without the [u] flag, case-insensitive matching never identifies a
    non-ASCII code unit with an ASCII one, so folding A-Z is exact for an
    ASCII pattern. *)
Definition lower (c : N) : N :=
  if (N.leb 65 c && N.leb c 90)%N then (c + 32)%N else c.

Fixpoint prefix_ci (p s : jsstring) : bool :=
  match p, s with
  | [], _ => true
  | _ :: _, [] => false
  | a :: p', b :: s' => N.eqb (lower a) (lower b) && prefix_ci p' s'
  end.

Fixpoint test_ci (p s : jsstring) : bool :=
  prefix_ci p s || match s with [] => false | _ :: s' => test_ci p s' end.

(** ** Tasks *)

(** A task identifier is a JS number ([Date.now()], a serial key) or a
    string (a UUID key). [===] never equates a number with a string. *)
Inductive Ident :=
| INum (n : Z)
| IStr (s : jsstring).

Definition Ident_eq_dec : forall a b : Ident, {a = b} + {a <> b}.
Proof. decide equality; [apply Z.eq_dec | apply jsstring_eq_dec]. Defined.

(** [a === b] on identifiers. *)
Definition strict_eq (a b : Ident) : bool :=
  if Ident_eq_dec a b then true else false.

Record Task := mkTask { id : Ident; title : jsstring; done : bool }.

Definition Task_eq_dec : forall a b : Task, {a = b} + {a <> b}.
Proof.
  decide equality;
    [apply Bool.bool_dec | apply jsstring_eq_dec | apply Ident_eq_dec].
Defined.

Definition tasks_eq_dec : forall a b : list Task, {a = b} + {a <> b} :=
  list_eq_dec Task_eq_dec.

(** [{ ...t, done: d }] and [{ ...t, title: x }] *)
Definition with_done (d : bool) (t : Task) : Task := mkTask (id t) (title t) d.
Definition with_title (x : jsstring) (t : Task) : Task := mkTask (id t) x (done t).

Definition ids (l : list Task) : list Ident := map id l.

(** [tasks.find((t) => t.id === i)] *)
Definition find_by_id (i : Ident) (l : list Task) : option Task :=
  List.find (fun t => strict_eq (id t) i) l.

(** The two built-in tasks shown when nothing is stored. *)
Definition defaultTasks : list Task :=
  [ mkTask (INum 1)
      [1057; 1076; 1077; 1083; 1072; 1090; 1100; 32; 1087; 1077; 1088; 1074;
       1099; 1081; 32; 1074; 1072; 1081; 1073; 45; 1087; 1088; 1086; 1077;
       1082; 1090; 32; 55357; 56846]%N
      false;
    mkTask (INum 2)
      [1044; 1086; 1073; 1072; 1074; 1080; 1090; 1100; 32; 1079; 1072; 1076;
       1072; 1095; 1091]%N
      false ].

(** ** Filters *)

Definition FILTERS_all : jsstring := js "all".
Definition FILTERS_active : jsstring := js "active".
Definition FILTERS_done : jsstring := js "done".

(** The [filteredTasks] memo, as a function of its two dependencies. *)
Definition filteredTasks (filter : jsstring) (tasks : list Task) : list Task :=
  if jsstring_eqb filter FILTERS_active then List.filter (fun t => negb (done t)) tasks
  else if jsstring_eqb filter FILTERS_done then List.filter (fun t => done t) tasks
  else tasks.

(** [doneCount] and [hasCompleted] *)
Definition doneCount (tasks : list Task) : nat :=
  length (List.filter (fun t => done t) tasks).
Definition hasCompleted (tasks : list Task) : bool := Nat.ltb 0 (doneCount tasks).

(** *** The same derivation over array objects

    Arrays are objects: the state holds a reference, [Array.prototype.filter]
    allocates a fresh array, and the [all] branch returns the state's own
    array. The store maps addresses to array contents. *)
Definition Store := list (list Task).
Definition addr := nat.

Definition array_filter (p : Task -> bool) (a : addr) (h : Store) : Store * addr :=
  (h ++ [List.filter p (nth a h [])], length h).

Definition filteredTasks_ref (filter : jsstring) (tasks : addr) (h : Store)
  : Store * addr :=
  if jsstring_eqb filter FILTERS_active then array_filter (fun t => negb (done t)) tasks h
  else if jsstring_eqb filter FILTERS_done then array_filter (fun t => done t) tasks h
  else (h, tasks).

(** ** Local storage *)

(** The two entries the component uses. Stored task lists are kept decoded:
    [JSON.parse (JSON.stringify l)] is [l] for a list of tasks. When
    [available] is false every access throws (and the component's
    [try]/[catch] swallows it). *)
Record LocalStorage := mkStorage {
  available : bool;
  item_tasks : option (list Task);
  item_filter : option jsstring
}.

(** [None] stands for a thrown exception. *)
Definition getItem_tasks (ls : LocalStorage) : option (option (list Task)) :=
  if available ls then Some (item_tasks ls) else None.

Definition setItem_tasks (v : list Task) (ls : LocalStorage) : option LocalStorage :=
  if available ls then Some (mkStorage true (Some v) (item_filter ls)) else None.

Definition setItem_filter (v : jsstring) (ls : LocalStorage) : option LocalStorage :=
  if available ls then Some (mkStorage true (item_tasks ls) (Some v)) else None.

(** [try { ... } catch { }] around a storage write *)
Definition ignore_errors (r : option LocalStorage) (ls : LocalStorage) : LocalStorage :=
  match r with Some ls' => ls' | None => ls end.

(** The initializer of the [tasks] state. *)
Definition initialTasks (ls : LocalStorage) : list Task :=
  match getItem_tasks ls with
  | Some (Some l) => l
  | _ => defaultTasks
  end.

Declare Scope handler_scope.
Notation "s |> f" := (f s) (at level 45, left associativity, only parsing) : handler_scope.
Open Scope handler_scope.

(** ** The local component ([src/App.jsx]) *)

Module Local.

Record State := mkState {
  text : jsstring;
  tasks : list Task;
  filter : jsstring;
  editingId : option Ident;
  editingText : jsstring;
  localStorage : LocalStorage
}.

(** State setters. *)
Definition setText (v : jsstring) (s : State) : State :=
  mkState v (tasks s) (filter s) (editingId s) (editingText s) (localStorage s).
Definition setTasks (v : list Task) (s : State) : State :=
  mkState (text s) v (filter s) (editingId s) (editingText s) (localStorage s).
Definition setFilter (v : jsstring) (s : State) : State :=
  mkState (text s) (tasks s) v (editingId s) (editingText s) (localStorage s).
Definition setEditingId (v : option Ident) (s : State) : State :=
  mkState (text s) (tasks s) (filter s) v (editingText s) (localStorage s).
Definition setEditingText (v : jsstring) (s : State) : State :=
  mkState (text s) (tasks s) (filter s) (editingId s) v (localStorage s).
Definition setStorage (v : LocalStorage) (s : State) : State :=
  mkState (text s) (tasks s) (filter s) (editingId s) (editingText s) v.

(** Handlers. Each one closes over the state of the render it was
    created in, which is the state it is applied to. [now] is the value
    [Date.now()] returns. *)
Definition addTask (now : Z) (s : State) : State :=
  let title := trim (text s) in
  if negb (truthy title) then s
  else
    let newTask := mkTask (INum now) title false in
    s |> setTasks (newTask :: tasks s) |> setText [].

Definition toggleTask (i : Ident) (s : State) : State :=
  s |> setTasks
         (map (fun t => if strict_eq (id t) i then with_done (negb (done t)) t else t)
              (tasks s)).

Definition removeTask (i : Ident) (s : State) : State :=
  s |> setTasks (List.filter (fun t => negb (strict_eq (id t) i)) (tasks s)).

Definition clearCompleted (s : State) : State :=
  s |> setTasks (List.filter (fun t => negb (done t)) (tasks s)).

Definition startEditing (task : Task) (s : State) : State :=
  s |> setEditingId (Some (id task)) |> setEditingText (title task).

Definition cancelEditing (s : State) : State :=
  s |> setEditingId None |> setEditingText [].

Definition saveEditing (i : Ident) (s : State) : State :=
  let title := trim (editingText s) in
  if negb (truthy title) then cancelEditing s
  else
    s |> setTasks
           (map (fun t => if strict_eq (id t) i then with_title title t else t) (tasks s))
      |> cancelEditing.

(** The two persistence effects, with dependencies [[tasks]] and
    [[filter]]. *)
Definition persistTasks (s : State) : State :=
  s |> setStorage (ignore_errors (setItem_tasks (tasks s) (localStorage s)) (localStorage s)).

Definition persistFilter (s : State) : State :=
  s |> setStorage (ignore_errors (setItem_filter (filter s) (localStorage s)) (localStorage s)).

(** Effects after the render of [cur], whose previous render was [prev].
    Dependencies are compared by content: a new array with the old
    content would only make [persistTasks] store the same JSON again. *)
Definition commit (prev cur : State) : State :=
  let s1 := if tasks_eq_dec (tasks prev) (tasks cur) then cur else persistTasks cur in
  if jsstring_eq_dec (filter prev) (filter cur) then s1 else persistFilter s1.

(** First render: state initializers, then every effect. [f0] is the
    initial filter (the stored one when [FILTERS] knows it, else [all]). *)
Definition mount (ls : LocalStorage) (f0 : jsstring) : State :=
  mkState [] (initialTasks ls) f0 None [] ls |> persistTasks |> persistFilter.

(** User events. *)
Inductive Event :=
| TypeText (v : jsstring)
| AddTask (now : Z)
| ToggleTask (i : Ident)
| RemoveTask (i : Ident)
| ClearCompleted
| StartEditing (task : Task)
| TypeEditingText (v : jsstring)
| CancelEditing
| SaveEditing (i : Ident)
| SetFilter (v : jsstring).

Definition handle (e : Event) (s : State) : State :=
  match e with
  | TypeText v => setText v s
  | AddTask now => addTask now s
  | ToggleTask i => toggleTask i s
  | RemoveTask i => removeTask i s
  | ClearCompleted => clearCompleted s
  | StartEditing task => startEditing task s
  | TypeEditingText v => setEditingText v s
  | CancelEditing => cancelEditing s
  | SaveEditing i => saveEditing i s
  | SetFilter v => setFilter v s
  end.

Definition step (e : Event) (s : State) : State := commit s (handle e s).

Definition run (es : list Event) (s : State) : State :=
  fold_left (fun s e => step e s) es s.

End Local.

(** ** The Supabase-backed component *)

Module Remote.

(** *** The remote client, as far as the component sees it *)

Record Error := mkError { message : jsstring }.

(** The [{ data, error }] object every awaited query resolves to. *)
Record Response (A : Type) := mkResponse { data : option A; error : option Error }.

(** A row of the [tasks] table as selected; [done] may be [null]. *)
Record Row := mkRow { row_id : Ident; row_title : jsstring; row_done : option bool }.

(** [!!v] for a nullable boolean column *)
Definition to_bool (v : option bool) : bool :=
  match v with Some b => b | None => false end.

(** [(t) => ({ id: t.id, title: t.title, done: !!t.done })] *)
Definition task_of_row (r : Row) : Task :=
  mkTask (row_id r) (row_title r) (to_bool (row_done r)).

(** The queries the component builds on [supabase.from("tasks")]. *)
Inductive Request :=
| Insert (title : jsstring) (done : bool) (user_id : jsstring)
| UpdateDone (done : bool) (id : Ident) (user_id : jsstring)
| UpdateTitle (title : jsstring) (id : Ident) (user_id : jsstring)
| DeleteById (id : Ident) (user_id : jsstring)
| DeleteDone (user_id : jsstring)
| Select (columns : jsstring) (user_id : jsstring) (order : jsstring) (ascending : bool).

Record User := mkUser { user_id : jsstring }.

(** What a mutation handler keeps across its [await]: the request in
    flight and the [prevTasks] it captured. *)
Record Pending := mkPending { request : Request; prevTasks : list Task }.

Definition load_failed : jsstring :=
  [1053; 1077; 32; 1091; 1076; 1072; 1083; 1086; 1089; 1100; 32; 1079; 1072;
   1075; 1088; 1091; 1079; 1080; 1090; 1100; 32; 1079; 1072; 1076; 1072; 1095;
   1080; 32; 1080; 1079; 32; 83; 117; 112; 97; 98; 97; 115; 101; 46]%N.

(** *** Component state *)

Record State := mkState {
  text : jsstring;
  remoteError : jsstring;
  remoteLoading : bool;
  session : option User;
  tasks : list Task;
  filter : jsstring;
  editingId : option Ident;
  editingText : jsstring;
  prevUserIdRef : option jsstring;
  localStorage : LocalStorage
}.

Definition setText (v : jsstring) (s : State) : State :=
  mkState v (remoteError s) (remoteLoading s) (session s) (tasks s) (filter s)
          (editingId s) (editingText s) (prevUserIdRef s) (localStorage s).
Definition setRemoteError (v : jsstring) (s : State) : State :=
  mkState (text s) v (remoteLoading s) (session s) (tasks s) (filter s)
          (editingId s) (editingText s) (prevUserIdRef s) (localStorage s).
Definition setRemoteLoading (v : bool) (s : State) : State :=
  mkState (text s) (remoteError s) v (session s) (tasks s) (filter s)
          (editingId s) (editingText s) (prevUserIdRef s) (localStorage s).
Definition setSession (v : option User) (s : State) : State :=
  mkState (text s) (remoteError s) (remoteLoading s) v (tasks s) (filter s)
          (editingId s) (editingText s) (prevUserIdRef s) (localStorage s).
(** [setTasks((prev) => f(prev))]; [setTasks(v)] is [setTasks (fun _ => v)]. *)
Definition setTasks (f : list Task -> list Task) (s : State) : State :=
  mkState (text s) (remoteError s) (remoteLoading s) (session s) (f (tasks s)) (filter s)
          (editingId s) (editingText s) (prevUserIdRef s) (localStorage s).
Definition setFilter (v : jsstring) (s : State) : State :=
  mkState (text s) (remoteError s) (remoteLoading s) (session s) (tasks s) v
          (editingId s) (editingText s) (prevUserIdRef s) (localStorage s).
Definition setEditingId (v : option Ident) (s : State) : State :=
  mkState (text s) (remoteError s) (remoteLoading s) (session s) (tasks s) (filter s)
          v (editingText s) (prevUserIdRef s) (localStorage s).
Definition setEditingText (v : jsstring) (s : State) : State :=
  mkState (text s) (remoteError s) (remoteLoading s) (session s) (tasks s) (filter s)
          (editingId s) v (prevUserIdRef s) (localStorage s).
Definition setPrevUserIdRef (v : option jsstring) (s : State) : State :=
  mkState (text s) (remoteError s) (remoteLoading s) (session s) (tasks s) (filter s)
          (editingId s) (editingText s) v (localStorage s).
Definition setStorage (v : LocalStorage) (s : State) : State :=
  mkState (text s) (remoteError s) (remoteLoading s) (session s) (tasks s) (filter s)
          (editingId s) (editingText s) (prevUserIdRef s) v.

(** [session?.user ?? null] *)
Definition user (s : State) : option User := session s.

(** [user?.id ?? null] *)
Definition userId (s : State) : option jsstring := option_map user_id (user s).

(** Truthiness of a nullable string. *)
Definition truthy_opt (v : option jsstring) : bool :=
  match v with Some x => truthy x | None => false end.

Definition User_eq_dec : forall a b : option User, {a = b} + {a <> b}.
Proof. decide equality. decide equality. apply jsstring_eq_dec. Defined.

Definition userId_eq_dec : forall a b : option jsstring, {a = b} + {a <> b}.
Proof. decide equality. apply jsstring_eq_dec. Defined.

Section Client.

(** [Boolean(supabase)]: whether the client module exports a client. *)
Variable isSupabaseReady : bool.

(** The user the handlers talk to the backend for:
    [isSupabaseReady && user]. *)
Definition remoteUser (s : State) : option User :=
  if isSupabaseReady then user s else None.

(** *** Handlers

    An [async] handler is split at its [await]: the first part returns
    the state it leaves and what it waits for, the second part takes
    the reply. The state the second part runs on is whatever the
    component holds when the reply arrives. *)

Definition addTask_begin (now : Z) (s : State) : State * option Request :=
  let title := trim (text s) in
  if negb (truthy title) then (s, None)
  else
    match remoteUser s with
    | Some u => (s |> setRemoteError [], Some (Insert title false (user_id u)))
    | None =>
        let newTask := mkTask (INum now) title false in
        (s |> setTasks (fun prev => newTask :: prev) |> setText [], None)
    end.

(** After [await ... .insert(...).select("id,title,done").single()].
    With neither [error] nor [data], reading [data.id] throws and the
    handler ends there. *)
Definition addTask_resume (reply : Response Row) (s : State) : State :=
  match error reply with
  | Some e => s |> setRemoteError (message e)
  | None =>
      match data reply with
      | Some d => s |> setTasks (fun prev => task_of_row d :: prev) |> setText []
      | None => s
      end
  end.

(** The rollback shared by the four optimistic handlers:
    [if (error) { setTasks(prevTasks); setRemoteError(error.message); }] *)
Definition mutation_resume (p : Pending) (error : option Error) (s : State) : State :=
  match error with
  | Some e => s |> setTasks (fun _ => prevTasks p) |> setRemoteError (message e)
  | None => s
  end.

Definition toggleTask_begin (i : Ident) (s : State) : State * option Pending :=
  match find_by_id i (tasks s) with
  | None => (s, None)
  | Some current =>
      let nextDone := negb (done current) in
      let update := map (fun t => if strict_eq (id t) i then with_done nextDone t else t) in
      match remoteUser s with
      | Some u =>
          (s |> setRemoteError [] |> setTasks update,
           Some (mkPending (UpdateDone nextDone i (user_id u)) (tasks s)))
      | None => (s |> setTasks update, None)
      end
  end.

Definition removeTask_begin (i : Ident) (s : State) : State * option Pending :=
  let update := List.filter (fun t => negb (strict_eq (id t) i)) in
  match remoteUser s with
  | Some u =>
      (s |> setRemoteError [] |> setTasks update,
       Some (mkPending (DeleteById i (user_id u)) (tasks s)))
  | None => (s |> setTasks update, None)
  end.

Definition clearCompleted_begin (s : State) : State * option Pending :=
  let update := List.filter (fun t => negb (done t)) in
  match remoteUser s with
  | Some u =>
      (s |> setRemoteError [] |> setTasks update,
       Some (mkPending (DeleteDone (user_id u)) (tasks s)))
  | None => (s |> setTasks update, None)
  end.

Definition startEditing (task : Task) (s : State) : State :=
  s |> setEditingId (Some (id task)) |> setEditingText (title task).

Definition cancelEditing (s : State) : State :=
  s |> setEditingId None |> setEditingText [].

Definition saveEditing_begin (i : Ident) (s : State) : State * option Pending :=
  let title := trim (editingText s) in
  if negb (truthy title) then (cancelEditing s, None)
  else
    let update := map (fun t => if strict_eq (id t) i then with_title title t else t) in
    match remoteUser s with
    | Some u =>
        (s |> setRemoteError [] |> setTasks update |> cancelEditing,
         Some (mkPending (UpdateTitle title i (user_id u)) (tasks s)))
    | None => (s |> setTasks update |> cancelEditing, None)
    end.

(** A handler run to completion with nothing in between: the reply is
    handled on the state the first part left. *)
Definition await {K : Type} (r : State * option K) (k : K -> State -> State) : State :=
  match snd r with
  | Some p => k p (fst r)
  | None => fst r
  end.

Definition addTask (now : Z) (reply : Response Row) (s : State) : State :=
  await (addTask_begin now s) (fun _ => addTask_resume reply).
Definition toggleTask (i : Ident) (error : option Error) (s : State) : State :=
  await (toggleTask_begin i s) (fun p => mutation_resume p error).
Definition removeTask (i : Ident) (error : option Error) (s : State) : State :=
  await (removeTask_begin i s) (fun p => mutation_resume p error).
Definition clearCompleted (error : option Error) (s : State) : State :=
  await (clearCompleted_begin s) (fun p => mutation_resume p error).
Definition saveEditing (i : Ident) (error : option Error) (s : State) : State :=
  await (saveEditing_begin i s) (fun p => mutation_resume p error).

(** *** Effects, in declaration order *)

(** Second effect, dependencies [[tasks, user]]: local storage is only
    written while nobody is logged in. *)
Definition persistTasks (s : State) : State :=
  match user s with
  | Some _ => s
  | None =>
      s |> setStorage (ignore_errors (setItem_tasks (tasks s) (localStorage s))
                                     (localStorage s))
  end.

(** Third effect, dependencies [[filter]]. *)
Definition persistFilter (s : State) : State :=
  s |> setStorage (ignore_errors (setItem_filter (filter s) (localStorage s))
                                 (localStorage s)).

(** The two queries of the load. *)
Definition load_request (uid : jsstring) : Request :=
  Select (js "id,title,done,user_id,created_at") uid (js "created_at") false.

Definition load_retry (uid : jsstring) (res : Response (list Row)) : option Request :=
  match error res with
  | Some e =>
      if test_ci (js "created_at") (message e)
      then Some (Select (js "id,title,done,user_id") uid (js "id") false)
      else None
  | None => None
  end.

(** Fourth effect, dependencies [[isSupabaseReady, user?.id]], up to the
    first [await] of the load it may start. It returns the user
    identifier it loads for. *)
Definition reconcile (s : State) : State * option jsstring :=
  if negb isSupabaseReady then (s, None)
  else
    let prevUserId := prevUserIdRef s in
    let nextUserId := userId s in
    let s := s |> setPrevUserIdRef nextUserId in
    if truthy_opt prevUserId && negb (truthy_opt nextUserId) then
      let s := match getItem_tasks (localStorage s) with
               | Some (Some l) => s |> setTasks (fun _ => l)
               | _ => s
               end in
      (s |> setRemoteError [] |> setRemoteLoading false, None)
    else
      match nextUserId with
      | Some uid =>
          if truthy uid
          then (s |> setRemoteError [] |> setRemoteLoading true, Some uid)
          else (s, None)
      | None => (s, None)
      end.

(** The rest of the load, from the reply it settles on. *)
Definition load_finish (res : Response (list Row)) (s : State) : State :=
  match error res with
  | Some e =>
      s |> setRemoteError (if truthy (message e) then message e else load_failed)
  | None =>
      s |> setTasks (fun _ => map task_of_row
                                  (match data res with Some d => d | None => [] end))
        |> setEditingId None |> setEditingText []
  end |> setRemoteLoading false.

Definition load_resume (uid : jsstring) (res1 res2 : Response (list Row)) (s : State)
  : State :=
  match load_retry uid res1 with
  | Some _ => load_finish res2 s
  | None => load_finish res1 s
  end.

(** One round of effects after the render of [cur], whose previous
    render was [prev]. Dependencies are compared by content: a new array
    with the old content would only make [persistTasks] store the same
    JSON again. *)
Definition effects (prev cur : State) : State * option jsstring :=
  let s1 :=
    if tasks_eq_dec (tasks prev) (tasks cur) then
      if User_eq_dec (user prev) (user cur) then cur else persistTasks cur
    else persistTasks cur in
  let s2 := if jsstring_eq_dec (filter prev) (filter cur) then s1 else persistFilter s1 in
  if userId_eq_dec (userId prev) (userId cur) then (s2, None) else reconcile s2.

(** Effects until the component is at rest: state set by an effect
    causes one more render, whose effects set no further state. *)
Definition commit (prev cur : State) : State * option jsstring :=
  let r := effects prev cur in
  (fst (effects cur (fst r)), snd r).

Definition settle (prev cur : State) : State := fst (commit prev cur).

(** First render: state initializers, then every effect. [f0] is the
    initial filter (the stored one when [FILTERS] knows it, else [all]). *)
Definition mount (ls : LocalStorage) (f0 : jsstring) : State :=
  fst (reconcile
         (mkState [] [] false None (initialTasks ls) f0 None [] None ls
            |> persistTasks |> persistFilter)).

(** *** Events

    A user event carries what the environment contributes while it is
    handled: the clock reading and the backend's replies. *)
Inductive Event :=
| TypeText (v : jsstring)
| AddTask (now : Z) (reply : Response Row)
| ToggleTask (i : Ident) (error : option Error)
| RemoveTask (i : Ident) (error : option Error)
| ClearCompleted (error : option Error)
| StartEditing (task : Task)
| TypeEditingText (v : jsstring)
| CancelEditing
| SaveEditing (i : Ident) (error : option Error)
| SetFilter (v : jsstring)
| SessionChange (next : option User) (res1 res2 : Response (list Row)).

(** An [async] handler between renders: effects after its first part,
    then the reply, then effects again. *)
Definition run_async {K : Type} (s : State) (r : State * option K)
           (k : K -> State -> State) : State :=
  let s1 := settle s (fst r) in
  match snd r with
  | Some p => settle s1 (k p s1)
  | None => s1
  end.

Definition step (e : Event) (s : State) : State :=
  match e with
  | TypeText v => settle s (setText v s)
  | AddTask now reply => run_async s (addTask_begin now s) (fun _ => addTask_resume reply)
  | ToggleTask i err => run_async s (toggleTask_begin i s) (fun p => mutation_resume p err)
  | RemoveTask i err => run_async s (removeTask_begin i s) (fun p => mutation_resume p err)
  | ClearCompleted err => run_async s (clearCompleted_begin s) (fun p => mutation_resume p err)
  | StartEditing task => settle s (startEditing task s)
  | TypeEditingText v => settle s (setEditingText v s)
  | CancelEditing => settle s (cancelEditing s)
  | SaveEditing i err => run_async s (saveEditing_begin i s) (fun p => mutation_resume p err)
  | SetFilter v => settle s (setFilter v s)
  | SessionChange next res1 res2 =>
      let r := commit s (setSession next s) in
      match snd r with
      | Some uid => settle (fst r) (load_resume uid res1 res2 (fst r))
      | None => fst r
      end
  end.

Definition run (es : list Event) (s : State) : State :=
  fold_left (fun s e => step e s) es s.

End Client.

End Remote.

(** ** Vocabulary of the properties *)

(** [removes_completed l r]: [r] is [l] with exactly the completed tasks
    taken out, the others kept as they are and in their order. *)
Inductive removes_completed : list Task -> list Task -> Prop :=
| rc_nil : removes_completed [] []
| rc_drop t l r : done t = true -> removes_completed l r -> removes_completed (t :: l) r
| rc_keep t l r : done t = false -> removes_completed l r -> removes_completed (t :: l) (t :: r).

(** Every title has a character that is not white space. *)
Definition titled (l : list Task) : Prop := Forall (fun t => blank (title t) = false) l.

(** No two tasks of the list share an identifier. *)
Definition unique_ids (l : list Task) : Prop := NoDup (ids l).

(** What a toggle of [i] may do to one task: nothing but its [done] flag,
    and not even that when the task is another one. *)
Definition toggled_at (i : Ident) (t t' : Task) : Prop :=
  id t' = id t /\ title t' = title t /\ (id t <> i -> done t' = done t).

(** The tasks carrying identifier [i] have the same [done] flag. *)
Definition agree_on_done (i : Ident) (l : list Task) : Prop :=
  forall t u, In t l -> In u l -> id t = i -> id u = i -> done t = done u.

(** A property of the stored task list, if there is one. *)
Definition stored (P : list Task -> Prop) (ls : LocalStorage) : Prop :=
  forall l, item_tasks ls = Some l -> P l.

(** *** Assumptions on the environment of a run *)

Definition rows_of (res : Remote.Response (list Remote.Row)) : list Remote.Row :=
  match Remote.data res with Some d => d | None => [] end.

(** The identifier a new task gets is not in use: the clock reading for a
    local task, the key the backend assigned for a remote one; and a load
    delivers rows with distinct keys. *)
Definition fresh_local (s : Local.State) (e : Local.Event) : Prop :=
  match e with
  | Local.AddTask now => ~ In (INum now) (ids (Local.tasks s))
  | _ => True
  end.

Definition fresh_remote (ready : bool) (s : Remote.State) (e : Remote.Event) : Prop :=
  match e with
  | Remote.AddTask now reply =>
      match Remote.remoteUser ready s with
      | None => ~ In (INum now) (ids (Remote.tasks s))
      | Some _ => forall d, Remote.data reply = Some d ->
                            ~ In (Remote.row_id d) (ids (Remote.tasks s))
      end
  | Remote.SessionChange _ res1 res2 =>
      NoDup (map Remote.row_id (rows_of res1)) /\ NoDup (map Remote.row_id (rows_of res2))
  | _ => True
  end.

(** The rows the backend delivers carry titles that are not blank. *)
Definition titled_rows (l : list Remote.Row) : Prop :=
  Forall (fun r => blank (Remote.row_title r) = false) l.

Definition titled_remote (e : Remote.Event) : Prop :=
  match e with
  | Remote.AddTask _ reply =>
      forall d, Remote.data reply = Some d -> blank (Remote.row_title d) = false
  | Remote.SessionChange _ res1 res2 => titled_rows (rows_of res1) /\ titled_rows (rows_of res2)
  | _ => True
  end.

(** An assumption on every event of a run, each taken in the state the run
    has reached. *)
Fixpoint along_local (A : Local.State -> Local.Event -> Prop)
         (es : list Local.Event) (s : Local.State) : Prop :=
  match es with
  | [] => True
  | e :: es' => A s e /\ along_local A es' (Local.step e s)
  end.

Fixpoint along_remote (ready : bool) (A : Remote.State -> Remote.Event -> Prop)
         (es : list Remote.Event) (s : Remote.State) : Prop :=
  match es with
  | [] => True
  | e :: es' => A s e /\ along_remote ready A es' (Remote.step ready e s)
  end.

(** A property holds of the task list shown and of the one stored. *)
Definition local_inv (P : list Task -> Prop) (s : Local.State) : Prop :=
  P (Local.tasks s) /\ stored P (Local.localStorage s).

Definition remote_inv (P : list Task -> Prop) (s : Remote.State) : Prop :=
  P (Remote.tasks s) /\ stored P (Remote.localStorage s).

(** ** Concrete scenarios *)

(** An empty, working local storage. *)
Definition empty_storage : LocalStorage := mkStorage true None None.

Definition alice : Remote.User := Remote.mkUser (js "alice").

(** Replies of the backend. *)
Definition no_rows : Remote.Response (list Remote.Row) := Remote.mkResponse (Some []) None.
Definition no_row : Remote.Response Remote.Row := Remote.mkResponse None None.
Definition silent_failure : Remote.Error := Remote.mkError [].
Definition offline : Remote.Error := Remote.mkError (js "Failed to fetch").

(** The tasks of the spec's scenario: [{1,"A",false},{2,"B",true}]. *)
Definition taskA : Task := mkTask (INum 1) (js "A") false.
Definition taskB : Task := mkTask (INum 2) (js "B") true.

(** A component holding these two tasks, nobody logged in. *)
Definition local_AB : Local.State :=
  Local.mkState [] [taskA; taskB] FILTERS_all None [] (mkStorage true (Some [taskA; taskB]) None).

Definition anonymous_AB : Remote.State :=
  Remote.mkState [] [] false None [taskA; taskB] FILTERS_all None [] None
                 (mkStorage true (Some [taskA; taskB]) None).

(** The same two tasks held for [alice], loaded from the backend; the local
    snapshot from before her login is the two built-in tasks. *)
Definition alice_AB : Remote.State :=
  Remote.mkState [] [] false (Some alice) [taskA; taskB] FILTERS_all None []
                 (Some (js "alice")) (mkStorage true (Some defaultTasks) None).

(** [alice] has typed a title. *)
Definition alice_typing : Remote.State := Remote.setText (js "milk") alice_AB.

(** Two tasks added at the same clock reading, the first one completed in
    between. *)
Definition twins : Remote.State :=
  Remote.run true
    [ Remote.TypeText (js "a"); Remote.AddTask 5 no_row; Remote.ToggleTask (INum 5) None;
      Remote.TypeText (js "b"); Remote.AddTask 5 no_row ]
    (Remote.mount true empty_storage FILTERS_all).

(** The insert fails. *)
Definition insert_failed : Remote.Response Remote.Row := Remote.mkResponse None (Some offline).

(** The insert succeeds and the backend assigns key 7. *)
Definition inserted_milk : Remote.Response Remote.Row :=
  Remote.mkResponse (Some (Remote.mkRow (INum 7) (js "milk") (Some false))) None.

Definition local_typing : Local.State := Local.setText (js " milk ") local_AB.
Definition local_spaces : Local.State := Local.setText (js "   ") local_AB.

(** The backend holds the two tasks of the scenario for [alice]. *)
Definition rows_AB : Remote.Response (list Remote.Row) :=
  Remote.mkResponse
    (Some [Remote.mkRow (INum 1) (js "A") (Some false); Remote.mkRow (INum 2) (js "B") (Some true)])
    None.

(** The backend holds a row whose title is two spaces. *)
Definition rows_blank : Remote.Response (list Remote.Row) :=
  Remote.mkResponse (Some [Remote.mkRow (INum 9) (js "  ") None]) None.

(** The table has no [created_at] column. *)
Definition no_created_at : Remote.Response (list Remote.Row) :=
  Remote.mkResponse None (Some (Remote.mkError (js "column tasks.created_at does not exist"))).

(** Two adds at the same clock reading. *)
Definition same_clock : list Local.Event :=
  [ Local.TypeText (js "a"); Local.AddTask 5; Local.TypeText (js "b"); Local.AddTask 5 ].

(** A session: two adds and an edit while nobody is logged in, then a
    login, an add, a failed toggle and a clear. *)
Definition local_session : list Local.Event :=
  [ Local.TypeText (js "a"); Local.AddTask 5; Local.ToggleTask (INum 1);
    Local.StartEditing taskA; Local.TypeEditingText (js " "); Local.SaveEditing (INum 1);
    Local.ClearCompleted ].

Definition remote_session : list Remote.Event :=
  [ Remote.TypeText (js "a"); Remote.AddTask 5 no_row;
    Remote.SessionChange (Some alice) rows_AB no_rows;
    Remote.TypeText (js "milk"); Remote.AddTask 6 inserted_milk;
    Remote.ToggleTask (INum 1) (Some offline); Remote.ClearCompleted None;
    Remote.SessionChange None no_rows no_rows ].

(** The inline editor of task A holds two spaces. *)
Definition local_editing_blank : Local.State :=
  Local.setEditingText (js "  ") (Local.startEditing taskA local_AB).

Definition alice_editing_blank : Remote.State :=
  Remote.setEditingText (js "  ") (Remote.startEditing taskA alice_AB).

(** First render over an empty store, then [alice] logs in and the backend
    delivers her two tasks, then she logs out. *)
Definition before_login : Remote.State := Remote.mount true empty_storage FILTERS_all.
Definition logged_in : Remote.State :=
  Remote.step true (Remote.SessionChange (Some alice) rows_AB no_rows) before_login.
Definition logged_out : Remote.State :=
  Remote.step true (Remote.SessionChange None no_rows no_rows) logged_in.

(** [alice] logs in but the load fails, so the two built-in tasks stay on
    screen; she adds a task and the backend gives its row the key 1. *)
Definition load_failed_then_add : Remote.State :=
  Remote.run true
    [ Remote.SessionChange (Some alice) (Remote.mkResponse None (Some offline)) no_rows;
      Remote.TypeText (js "milk");
      Remote.AddTask 5 (Remote.mkResponse
                          (Some (Remote.mkRow (INum 1) (js "milk") (Some false))) None) ]
    (Remote.mount true empty_storage FILTERS_all).

(** ** The sign-in panel of the Supabase-backed component

    [email], [authInfo] and [authError] are state variables of their own:
    [sendMagicLink] and [signOut] read and write nothing else. *)

Module Auth.

Record State := mkState { email : jsstring; authInfo : jsstring; authError : jsstring }.

Definition setEmail (v : jsstring) (s : State) : State := mkState v (authInfo s) (authError s).
Definition setAuthInfo (v : jsstring) (s : State) : State := mkState (email s) v (authError s).
Definition setAuthError (v : jsstring) (s : State) : State := mkState (email s) (authInfo s) v.

(** The calls on [supabase.auth]. *)
Inductive Request :=
| SignInWithOtp (email : jsstring) (emailRedirectTo : jsstring)
| SignOut.

Definition link_sent : jsstring :=
  [1055; 1080; 1089; 1100; 1084; 1086; 32; 1086; 1090; 1087; 1088; 1072;
   1074; 1083; 1077; 1085; 1086; 46; 32; 1054; 1090; 1082; 1088; 1086; 1081;
   32; 109; 97; 103; 105; 99; 32; 108; 105; 110; 107; 32; 1074; 32; 1087;
   1086; 1095; 1090; 1077; 44; 32; 1095; 1090; 1086; 1073; 1099; 32; 1074;
   1086; 1081; 1090; 1080; 46]%N.

Section Client.

(** [Boolean(supabase)] and [window.location.origin]. *)
Variable isSupabaseReady : bool.
Variable origin : jsstring.

Definition sendMagicLink_begin (s : State) : State * option Request :=
  if negb isSupabaseReady then (s, None)
  else
    let trimmed := trim (email s) in
    if negb (truthy trimmed) then (s, None)
    else
      (s |> setAuthError [] |> setAuthInfo [],
       Some (SignInWithOtp trimmed (origin ++ js "/todo-vibecode/"))).

Definition sendMagicLink_resume (error : option Remote.Error) (s : State) : State :=
  match error with
  | Some e => s |> setAuthError (Remote.message e)
  | None => s |> setAuthInfo link_sent
  end.

Definition signOut_begin (s : State) : State * option Request :=
  if negb isSupabaseReady then (s, None)
  else (s |> setAuthError [] |> setAuthInfo [], Some SignOut).

Definition signOut_resume (error : option Remote.Error) (s : State) : State :=
  match error with
  | Some e => s |> setAuthError (Remote.message e)
  | None => s
  end.

(** The handlers run to completion with nothing in between. *)
Definition sendMagicLink (error : option Remote.Error) (s : State) : State :=
  match snd (sendMagicLink_begin s) with
  | Some _ => sendMagicLink_resume error (fst (sendMagicLink_begin s))
  | None => fst (sendMagicLink_begin s)
  end.

Definition signOut (error : option Remote.Error) (s : State) : State :=
  match snd (signOut_begin s) with
  | Some _ => signOut_resume error (fst (signOut_begin s))
  | None => fst (signOut_begin s)
  end.

End Client.

End Auth.

(** ** More vocabulary *)

(** [removes_id i l r]: [r] is [l] with exactly the tasks carrying [i]
    taken out, the others kept as they are and in their order. *)
Inductive removes_id (i : Ident) : list Task -> list Task -> Prop :=
| ri_nil : removes_id i [] []
| ri_drop t l r : id t = i -> removes_id i l r -> removes_id i (t :: l) r
| ri_keep t l r : id t <> i -> removes_id i l r -> removes_id i (t :: l) (t :: r).

(** What a committed edit of [i] to title [x] may do to one task. *)
Definition retitled_at (i : Ident) (x : jsstring) (t t' : Task) : Prop :=
  id t' = id t /\ done t' = done t
  /\ (id t = i -> title t' = x) /\ (id t <> i -> title t' = title t).

(** A toggle of [i] flips the flag of a task carrying [i]. *)
Definition flipped_at (i : Ident) (t t' : Task) : Prop :=
  id t = i -> done t' = negb (done t).

(** The user the request is made for, and the row it names. *)
Definition request_user (r : Remote.Request) : jsstring :=
  match r with
  | Remote.Insert _ _ u => u
  | Remote.UpdateDone _ _ u => u
  | Remote.UpdateTitle _ _ u => u
  | Remote.DeleteById _ u => u
  | Remote.DeleteDone u => u
  | Remote.Select _ u _ _ => u
  end.

Definition request_row (r : Remote.Request) : option Ident :=
  match r with
  | Remote.UpdateDone _ i _ => Some i
  | Remote.UpdateTitle _ i _ => Some i
  | Remote.DeleteById i _ => Some i
  | _ => None
  end.

(** Events that only type, open or close the editor, or pick a filter. *)
Definition passive_local (e : Local.Event) : bool :=
  match e with
  | Local.TypeText _ | Local.StartEditing _ | Local.TypeEditingText _
  | Local.CancelEditing | Local.SetFilter _ => true
  | _ => false
  end.

Definition passive_remote (e : Remote.Event) : bool :=
  match e with
  | Remote.TypeText _ | Remote.StartEditing _ | Remote.TypeEditingText _
  | Remote.CancelEditing | Remote.SetFilter _ => true
  | _ => false
  end.

Definition session_event (e : Remote.Event) : bool :=
  match e with Remote.SessionChange _ _ _ => true | _ => false end.

(** Local storage holds what the component shows. *)
Definition mirrors (ls : LocalStorage) (tasks : list Task) (filter : jsstring) : Prop :=
  available ls = true /\ item_tasks ls = Some tasks /\ item_filter ls = Some filter.

(** The state of the Supabase-backed component, seen as a state of the
    local one; and a local event, as the event of the Supabase-backed
    component that the same gesture causes ([reply] and [err] are what the
    backend would answer, were it asked). *)
Definition forget (s : Remote.State) : Local.State :=
  Local.mkState (Remote.text s) (Remote.tasks s) (Remote.filter s)
                (Remote.editingId s) (Remote.editingText s) (Remote.localStorage s).

Definition as_remote (reply : Remote.Response Remote.Row) (err : option Remote.Error)
           (e : Local.Event) : Remote.Event :=
  match e with
  | Local.TypeText v => Remote.TypeText v
  | Local.AddTask now => Remote.AddTask now reply
  | Local.ToggleTask i => Remote.ToggleTask i err
  | Local.RemoveTask i => Remote.RemoveTask i err
  | Local.ClearCompleted => Remote.ClearCompleted err
  | Local.StartEditing task => Remote.StartEditing task
  | Local.TypeEditingText v => Remote.TypeEditingText v
  | Local.CancelEditing => Remote.CancelEditing
  | Local.SaveEditing i => Remote.SaveEditing i err
  | Local.SetFilter v => Remote.SetFilter v
  end.

(** Whenever the run toggles an identifier, the tasks carrying it agree on
    their flag. *)
Definition toggle_agrees (s : Local.State) (e : Local.Event) : Prop :=
  match e with
  | Local.ToggleTask i => agree_on_done i (Local.tasks s)
  | _ => True
  end.

(** A string of the given length occurs in [s] that equals [p] up to the
    case of ASCII letters. *)
Definition occurs_ci (p s : jsstring) : Prop :=
  exists pre mid post, s = pre ++ mid ++ post /\ map lower mid = map lower p.

(** More scenarios. *)
Definition mail_typing : Auth.State := Auth.mkState (js " a@b.c ") (js "old") (js "old").

Definition alice_editing_A : Remote.State := Remote.startEditing taskA alice_AB.
Definition alice_editing_milk : Remote.State := Remote.setEditingText (js " milk ") alice_editing_A.

(** * Properties *)

Unset Implicit Arguments.

(** Case analysis on every [if] of the goal. *)
Ltac case_ifs :=
  repeat match goal with
         | |- context [if ?c then _ else _] => destruct c
         end.

(** ** Strings *)

Example trim_spaces : trim (js "  buy milk ") = js "buy milk".
Proof. reflexivity. Qed.

Example trim_blank : trim (js "   ") = [].
Proof. reflexivity. Qed.

Example test_ci_created_at :
  test_ci (js "created_at") (js "column tasks.Created_At does not exist") = true
  /\ test_ci (js "created_at") (js "Failed to fetch") = false.
Proof. split; reflexivity. Qed.

Lemma truthy_false_iff (s : jsstring) : truthy s = false <-> s = [].
Proof. destruct s; simpl; split; congruence. Qed.

Lemma truthy_true_iff (s : jsstring) : truthy s = true <-> s <> [].
Proof. destruct s; simpl; split; congruence. Qed.

Lemma blank_rev (s : jsstring) : blank (rev s) = blank s.
Proof.
  unfold blank. induction s as [|c r IH]; simpl; [reflexivity|].
  rewrite forallb_app, IH. simpl. rewrite andb_true_r. apply andb_comm.
Qed.

Lemma trimStart_head (s r : jsstring) (c : N) : trimStart s = c :: r -> is_ws c = false.
Proof.
  induction s as [|a s IH]; simpl; [discriminate|].
  destruct (is_ws a) eqn:E; [exact IH|]. intros H. injection H as -> _. exact E.
Qed.

Lemma trimStart_nil_iff (s : jsstring) : trimStart s = [] <-> blank s = true.
Proof.
  induction s as [|a s IH]; simpl; [tauto|].
  destruct (is_ws a); simpl; [exact IH|]. split; discriminate.
Qed.

Lemma blank_trimStart (s : jsstring) : blank (trimStart s) = blank s.
Proof.
  induction s as [|a s IH]; simpl; [reflexivity|].
  destruct (is_ws a) eqn:E; simpl; [exact IH|]. now rewrite E.
Qed.

Lemma rev_nil_iff (A : Type) (l : list A) : rev l = [] <-> l = [].
Proof.
  split; intros H; [|now subst].
  apply (f_equal (@rev A)) in H. now rewrite rev_involutive in H.
Qed.

(** [trim] returns the empty string exactly on blank input. *)
Lemma trim_nil_iff (s : jsstring) : trim s = [] <-> blank s = true.
Proof.
  unfold trim, trimEnd.
  rewrite <- (blank_trimStart s), <- (blank_rev (trimStart s)), <- trimStart_nil_iff.
  apply rev_nil_iff.
Qed.

(** A non-empty result of [trim] is not blank. *)
Lemma trim_not_blank (s : jsstring) : trim s <> [] -> blank (trim s) = false.
Proof.
  unfold trim, trimEnd. intros H.
  rewrite blank_rev.
  destruct (trimStart (rev (trimStart s))) as [|c r] eqn:E; [now elim H|].
  apply trimStart_head in E. simpl. now rewrite E.
Qed.

Lemma truthy_trim_titled (s : jsstring) : truthy (trim s) = true -> blank (trim s) = false.
Proof. rewrite truthy_true_iff. apply trim_not_blank. Qed.

(** ** Identifiers and the list updates *)

Lemma strict_eq_true_iff (a b : Ident) : strict_eq a b = true <-> a = b.
Proof. unfold strict_eq. destruct (Ident_eq_dec a b); split; congruence. Qed.

Lemma strict_eq_false_iff (a b : Ident) : strict_eq a b = false <-> a <> b.
Proof. unfold strict_eq. destruct (Ident_eq_dec a b); split; congruence. Qed.

Lemma find_by_id_none (i : Ident) (l : list Task) :
  ~ In i (ids l) -> find_by_id i l = None.
Proof.
  unfold find_by_id, ids. induction l as [|t l IH]; simpl; [reflexivity|].
  intros H. destruct (strict_eq (id t) i) eqn:E.
  - apply strict_eq_true_iff in E. tauto.
  - apply IH. tauto.
Qed.

Lemma find_by_id_some (i : Ident) (l : list Task) (t : Task) :
  find_by_id i l = Some t -> In t l /\ id t = i.
Proof.
  unfold find_by_id. intros H. apply find_some in H.
  now rewrite strict_eq_true_iff in H.
Qed.

(** A [map] that only rewrites the tasks carrying [i] is the identity on a
    list without [i]. *)
Lemma map_absent (i : Ident) (f : Task -> Task) (l : list Task) :
  ~ In i (ids l) -> map (fun t => if strict_eq (id t) i then f t else t) l = l.
Proof.
  unfold ids. induction l as [|t l IH]; simpl; [reflexivity|].
  intros H. destruct (strict_eq (id t) i) eqn:E.
  - apply strict_eq_true_iff in E. tauto.
  - f_equal. apply IH. tauto.
Qed.

Lemma filter_absent (i : Ident) (l : list Task) :
  ~ In i (ids l) -> List.filter (fun t => negb (strict_eq (id t) i)) l = l.
Proof.
  unfold ids. induction l as [|t l IH]; simpl; [reflexivity|].
  intros H. destruct (strict_eq (id t) i) eqn:E; simpl.
  - apply strict_eq_true_iff in E. tauto.
  - f_equal. apply IH. tauto.
Qed.

Lemma ids_map_keep (f : Task -> Task) (l : list Task) :
  (forall t, id (f t) = id t) -> ids (map f l) = ids l.
Proof.
  intros H. unfold ids. rewrite map_map. apply map_ext. exact H.
Qed.

Lemma NoDup_ids_filter (p : Task -> bool) (l : list Task) :
  unique_ids l -> unique_ids (List.filter p l).
Proof.
  unfold unique_ids, ids. induction l as [|t l IH]; simpl; [auto|].
  intros H. inversion H as [|? ? Hn Hd]; subst.
  destruct (p t); simpl; [constructor|]; auto.
  intros Hin. apply Hn. apply in_map_iff in Hin as (u & Hu & Hin).
  apply filter_In in Hin. apply in_map_iff. exists u. tauto.
Qed.

Lemma titled_filter (p : Task -> bool) (l : list Task) : titled l -> titled (List.filter p l).
Proof.
  unfold titled. rewrite !Forall_forall. intros H t Ht. apply filter_In in Ht. apply H, Ht.
Qed.

Lemma filter_removes_completed (l : list Task) :
  removes_completed l (List.filter (fun t => negb (done t)) l).
Proof.
  induction l as [|t l IH]; simpl; [constructor|].
  destruct (done t) eqn:E; simpl; constructor; assumption.
Qed.

(** What [removes_completed] says, element by element. *)
Lemma removes_completed_In (l r : list Task) :
  removes_completed l r -> forall t, In t r <-> In t l /\ done t = false.
Proof.
  induction 1 as [|t l r Hd _ IH|t l r Hd _ IH]; intros u; simpl.
  - tauto.
  - rewrite IH. split; [tauto|]. intros [[->|Hin] Hu]; [congruence|tauto].
  - rewrite IH. split; [intros [->|H]; tauto|]. tauto.
Qed.

(** ... and it determines the result. *)
Lemma removes_completed_unique (l r r' : list Task) :
  removes_completed l r -> removes_completed l r' -> r = r'.
Proof.
  intros H. revert r'. induction H as [|t l r Hd _ IH|t l r Hd _ IH]; intros r' H'.
  - now inversion H'.
  - inversion H'; subst; [auto|congruence].
  - inversion H'; subst; [congruence|]. f_equal. auto.
Qed.

(** ** Effects leave the task list alone (outside a login or logout) *)

Lemma local_commit_tasks (prev cur : Local.State) :
  Local.tasks (Local.commit prev cur) = Local.tasks cur.
Proof.
  unfold Local.commit.
  destruct (tasks_eq_dec _ _), (jsstring_eq_dec _ _); reflexivity.
Qed.

Lemma local_step_tasks (e : Local.Event) (s : Local.State) :
  Local.tasks (Local.step e s) = Local.tasks (Local.handle e s).
Proof. apply local_commit_tasks. Qed.

Section RemoteEffects.

Variable ready : bool.

Lemma persistTasks_frame (s : Remote.State) :
  Remote.tasks (Remote.persistTasks s) = Remote.tasks s
  /\ Remote.session (Remote.persistTasks s) = Remote.session s
  /\ Remote.filter (Remote.persistTasks s) = Remote.filter s
  /\ Remote.prevUserIdRef (Remote.persistTasks s) = Remote.prevUserIdRef s.
Proof. unfold Remote.persistTasks. destruct (Remote.user s); auto. Qed.

(** Without a change of the user identifier no effect touches the state
    apart from local storage. *)
Lemma effects_same_user (prev cur : Remote.State) :
  Remote.userId prev = Remote.userId cur ->
  snd (Remote.effects ready prev cur) = None
  /\ Remote.tasks (fst (Remote.effects ready prev cur)) = Remote.tasks cur
  /\ Remote.session (fst (Remote.effects ready prev cur)) = Remote.session cur
  /\ Remote.text (fst (Remote.effects ready prev cur)) = Remote.text cur
  /\ Remote.remoteError (fst (Remote.effects ready prev cur)) = Remote.remoteError cur
  /\ Remote.editingId (fst (Remote.effects ready prev cur)) = Remote.editingId cur
  /\ Remote.editingText (fst (Remote.effects ready prev cur)) = Remote.editingText cur
  /\ Remote.prevUserIdRef (fst (Remote.effects ready prev cur)) = Remote.prevUserIdRef cur.
Proof.
  intros H. unfold Remote.effects.
  destruct (Remote.userId_eq_dec _ _) as [_|n]; [|contradiction].
  unfold Remote.persistTasks, Remote.persistFilter.
  repeat match goal with
         | |- context [if ?c then _ else _] => destruct c
         | |- context [match Remote.user ?x with _ => _ end] => destruct (Remote.user x)
         end; simpl; repeat split; reflexivity.
Qed.

Lemma reconcile_session (s : Remote.State) :
  Remote.session (fst (Remote.reconcile ready s)) = Remote.session s.
Proof.
  unfold Remote.reconcile.
  destruct (negb ready); [reflexivity|].
  destruct (_ && _).
  - simpl. destruct (getItem_tasks _) as [[l|]|]; reflexivity.
  - destruct (Remote.userId s) as [uid|]; [destruct (truthy uid)|]; reflexivity.
Qed.

Lemma effects_session (prev cur : Remote.State) :
  Remote.session (fst (Remote.effects ready prev cur)) = Remote.session cur.
Proof.
  unfold Remote.effects.
  destruct (Remote.userId_eq_dec _ _); [simpl|rewrite reconcile_session];
    unfold Remote.persistFilter;
    case_ifs; simpl; apply persistTasks_frame || reflexivity.
Qed.

Lemma settle_same_user (prev cur : Remote.State) :
  Remote.userId prev = Remote.userId cur ->
  Remote.tasks (Remote.settle ready prev cur) = Remote.tasks cur
  /\ Remote.session (Remote.settle ready prev cur) = Remote.session cur
  /\ Remote.text (Remote.settle ready prev cur) = Remote.text cur
  /\ Remote.remoteError (Remote.settle ready prev cur) = Remote.remoteError cur
  /\ Remote.editingId (Remote.settle ready prev cur) = Remote.editingId cur
  /\ Remote.editingText (Remote.settle ready prev cur) = Remote.editingText cur.
Proof.
  intros H. unfold Remote.settle, Remote.commit. simpl.
  destruct (effects_same_user prev cur H) as (_ & T1 & S1 & X1 & R1 & I1 & E1 & _).
  assert (U : Remote.userId cur = Remote.userId (fst (Remote.effects ready prev cur))).
  { unfold Remote.userId, Remote.user. now rewrite S1. }
  destruct (effects_same_user cur _ U) as (_ & T2 & S2 & X2 & R2 & I2 & E2 & _).
  repeat split; congruence.
Qed.

(** Between renders or run straight through, an optimistic handler
    leaves the same task list. *)
Lemma run_async_tasks (s : Remote.State) (r : Remote.State * option Remote.Pending)
      (err : option Remote.Error) :
  Remote.userId s = Remote.userId (fst r) ->
  Remote.tasks (Remote.run_async ready s r (fun p => Remote.mutation_resume p err))
  = Remote.tasks (Remote.await r (fun p => Remote.mutation_resume p err)).
Proof.
  intros U. unfold Remote.run_async, Remote.await.
  destruct (settle_same_user s (fst r) U) as (T1 & S1 & _).
  destruct (snd r) as [p|]; [|exact T1].
  set (s1 := Remote.settle ready s (fst r)) in *.
  assert (U1 : Remote.userId s1 = Remote.userId (Remote.mutation_resume p err s1)).
  { destruct err; reflexivity. }
  rewrite (proj1 (settle_same_user s1 _ U1)).
  destruct err; simpl; [reflexivity|exact T1].
Qed.

Lemma begin_userId (i : Ident) (s : Remote.State) :
  Remote.userId s = Remote.userId (fst (Remote.toggleTask_begin ready i s))
  /\ Remote.userId s = Remote.userId (fst (Remote.removeTask_begin ready i s))
  /\ Remote.userId s = Remote.userId (fst (Remote.clearCompleted_begin ready s))
  /\ Remote.userId s = Remote.userId (fst (Remote.saveEditing_begin ready i s)).
Proof.
  unfold Remote.toggleTask_begin, Remote.removeTask_begin, Remote.clearCompleted_begin,
    Remote.saveEditing_begin.
  destruct (find_by_id i (Remote.tasks s)), (negb (truthy (trim (Remote.editingText s)))),
    (Remote.remoteUser ready s); repeat apply conj; reflexivity.
Qed.

(** So what is proved of the four handlers' task lists holds of the steps
    of a run. *)
Lemma step_tasks (i : Ident) (err : option Remote.Error) (s : Remote.State) :
  Remote.tasks (Remote.step ready (Remote.ToggleTask i err) s)
  = Remote.tasks (Remote.toggleTask ready i err s)
  /\ Remote.tasks (Remote.step ready (Remote.RemoveTask i err) s)
     = Remote.tasks (Remote.removeTask ready i err s)
  /\ Remote.tasks (Remote.step ready (Remote.ClearCompleted err) s)
     = Remote.tasks (Remote.clearCompleted ready err s)
  /\ Remote.tasks (Remote.step ready (Remote.SaveEditing i err) s)
     = Remote.tasks (Remote.saveEditing ready i err s).
Proof.
  destruct (begin_userId i s) as (U1 & U2 & U3 & U4).
  repeat apply conj; now apply run_async_tasks.
Qed.

End RemoteEffects.

(** ** Filtering *)

Lemma filteredTasks_active (tasks : list Task) :
  filteredTasks FILTERS_active tasks = List.filter (fun t => negb (done t)) tasks.
Proof. reflexivity. Qed.

Lemma filteredTasks_done (tasks : list Task) :
  filteredTasks FILTERS_done tasks = List.filter (fun t => done t) tasks.
Proof. reflexivity. Qed.

(** Nothing is left out either: the derived list under [active] ([done])
    has every task that is not (is) completed. *)
Lemma filteredTasks_In (tasks : list Task) (t : Task) :
  (In t (filteredTasks FILTERS_active tasks) <-> In t tasks /\ done t = false)
  /\ (In t (filteredTasks FILTERS_done tasks) <-> In t tasks /\ done t = true).
Proof.
  rewrite filteredTasks_active, filteredTasks_done, !filter_In.
  destruct (done t); simpl; intuition congruence.
Qed.

(** Any filter value other than [active] and [done] shows the whole list. *)
Lemma filteredTasks_other (filter : jsstring) (tasks : list Task) :
  filter <> FILTERS_active -> filter <> FILTERS_done -> filteredTasks filter tasks = tasks.
Proof.
  intros Ha Hd. unfold filteredTasks, jsstring_eqb.
  destruct (jsstring_eq_dec filter FILTERS_active); [contradiction|].
  destruct (jsstring_eq_dec filter FILTERS_done); [contradiction|reflexivity].
Qed.

Lemma array_filter_store (p : Task -> bool) (a : addr) (h : Store) :
  firstn (length h) (fst (array_filter p a h)) = h
  /\ nth (snd (array_filter p a h)) (fst (array_filter p a h)) [] = List.filter p (nth a h []).
Proof.
  unfold array_filter. simpl. split.
  - rewrite firstn_app, firstn_all, Nat.sub_diag. simpl. apply app_nil_r.
  - rewrite app_nth2, Nat.sub_diag; [reflexivity|lia].
Qed.

(** C2. Under filter [active] the derived list has no completed task, under
    [done] it has no task that is not completed, under [all] it is the task
    list itself, in its order. Over array objects: whatever the filter, the
    arrays that existed before the derivation (the state's among them) have
    the content they had, and the array returned holds the derived list. *)
Theorem filteredTasks_correct :
  forall (filter : jsstring) (tasks : list Task) (h : Store) (a : addr),
    Forall (fun t => done t = false) (filteredTasks FILTERS_active tasks)
    /\ Forall (fun t => done t = true) (filteredTasks FILTERS_done tasks)
    /\ filteredTasks FILTERS_all tasks = tasks
    /\ firstn (length h) (fst (filteredTasks_ref filter a h)) = h
    /\ nth (snd (filteredTasks_ref filter a h)) (fst (filteredTasks_ref filter a h)) []
       = filteredTasks filter (nth a h []).
Proof.
  intros filter tasks h a. repeat split.
  - apply Forall_forall. intros t Ht. now apply filteredTasks_In in Ht.
  - apply Forall_forall. intros t Ht. now apply filteredTasks_In in Ht.
  - unfold filteredTasks_ref, filteredTasks.
    destruct (jsstring_eqb filter FILTERS_active); [apply array_filter_store|].
    destruct (jsstring_eqb filter FILTERS_done); [apply array_filter_store|].
    apply firstn_all.
  - unfold filteredTasks_ref, filteredTasks.
    destruct (jsstring_eqb filter FILTERS_active); [apply array_filter_store|].
    destruct (jsstring_eqb filter FILTERS_done); [apply array_filter_store|].
    reflexivity.
Qed.

(** The spec's scenario: tasks A (open) and B (completed), filter [done]. *)
Example filteredTasks_scenario : filteredTasks FILTERS_done [taskA; taskB] = [taskB].
Proof. reflexivity. Qed.

(** ** Clear completed *)

Lemma remote_await_success (r : Remote.State * option Remote.Pending) :
  Remote.await r (fun p => Remote.mutation_resume p None) = fst r.
Proof. unfold Remote.await. destruct (snd r); reflexivity. Qed.

Lemma clearCompleted_begin_tasks (ready : bool) (s : Remote.State) :
  Remote.tasks (fst (Remote.clearCompleted_begin ready s))
  = List.filter (fun t => negb (done t)) (Remote.tasks s).
Proof.
  unfold Remote.clearCompleted_begin. destruct (Remote.remoteUser ready s); reflexivity.
Qed.

(** C6. Clear-completed takes out exactly the completed tasks and keeps the
    others as they are and in their order: in the local component; in the
    remote one as soon as the handler has run (logged in or not), and still
    so once the backend has confirmed the delete. *)
Theorem clearCompleted_correct :
  forall (ready : bool) (sl : Local.State) (s : Remote.State),
    removes_completed (Local.tasks sl) (Local.tasks (Local.clearCompleted sl))
    /\ removes_completed (Remote.tasks s)
                         (Remote.tasks (fst (Remote.clearCompleted_begin ready s)))
    /\ removes_completed (Remote.tasks s) (Remote.tasks (Remote.clearCompleted ready None s)).
Proof.
  intros ready sl s. split; [|split].
  - apply filter_removes_completed.
  - rewrite clearCompleted_begin_tasks. apply filter_removes_completed.
  - unfold Remote.clearCompleted. rewrite remote_await_success, clearCompleted_begin_tasks.
    apply filter_removes_completed.
Qed.

(** ** Toggle *)

Lemma toggled_at_refl (i : Ident) (l : list Task) : Forall2 (toggled_at i) l l.
Proof. induction l; constructor; unfold toggled_at; auto. Qed.

Lemma toggled_at_map (i : Ident) (f : Task -> Task) (l : list Task) :
  (forall t, toggled_at i t (f t)) -> Forall2 (toggled_at i) l (map f l).
Proof. intros H. induction l; simpl; constructor; auto. Qed.

Lemma toggled_at_set (i : Ident) (d : Task -> bool) (t : Task) :
  toggled_at i t (if strict_eq (id t) i then with_done (d t) t else t).
Proof.
  unfold toggled_at. destruct (strict_eq (id t) i) eqn:E; simpl; auto.
  apply strict_eq_true_iff in E. repeat split; auto. intros H. contradiction.
Qed.

(** What [Forall2 (toggled_at i)] gives for the lists as wholes. *)
Lemma toggled_at_lists (i : Ident) (l l' : list Task) :
  Forall2 (toggled_at i) l l' ->
  length l' = length l /\ map id l' = map id l /\ map title l' = map title l.
Proof.
  induction 1 as [|t t' l l' (Hi & Ht & _) _ (IH1 & IH2 & IH3)]; simpl; [auto|].
  repeat split; congruence.
Qed.

(** C9. A toggle of [i] changes nothing but [done] flags of tasks carrying
    [i]: position by position, the task after has the identifier and title
    of the task before, and its [done] flag too unless its identifier is
    [i]; so length and order are kept. In the remote component this holds
    whatever the backend replies. *)
Theorem toggleTask_frame :
  forall (ready : bool) (i : Ident) (err : option Remote.Error)
         (sl : Local.State) (s : Remote.State),
    Forall2 (toggled_at i) (Local.tasks sl) (Local.tasks (Local.toggleTask i sl))
    /\ Forall2 (toggled_at i) (Remote.tasks s) (Remote.tasks (Remote.toggleTask ready i err s)).
Proof.
  intros ready i err sl s. split.
  - simpl. apply toggled_at_map. intros t. apply (toggled_at_set i (fun t => negb (done t))).
  - unfold Remote.toggleTask, Remote.toggleTask_begin, Remote.await.
    destruct (find_by_id i (Remote.tasks s)) as [current|]; simpl; [|apply toggled_at_refl].
    destruct (Remote.remoteUser ready s); simpl.
    + destruct err; simpl; [apply toggled_at_refl|].
      apply toggled_at_map. intros t. apply (toggled_at_set i (fun _ => negb (done current))).
    + apply toggled_at_map. intros t. apply (toggled_at_set i (fun _ => negb (done current))).
Qed.

(** ** Operations on an identifier that no task carries *)

(** C10. With an identifier that no task of the list carries, toggle,
    remove and save-edit leave the task list as it is, in both components
    and whatever the backend replies. *)
Theorem absent_id_noop :
  forall (ready : bool) (i : Ident) (err : option Remote.Error)
         (sl : Local.State) (s : Remote.State),
    ~ In i (ids (Local.tasks sl)) ->
    ~ In i (ids (Remote.tasks s)) ->
    Local.tasks (Local.toggleTask i sl) = Local.tasks sl
    /\ Local.tasks (Local.removeTask i sl) = Local.tasks sl
    /\ Local.tasks (Local.saveEditing i sl) = Local.tasks sl
    /\ Remote.tasks (Remote.toggleTask ready i err s) = Remote.tasks s
    /\ Remote.tasks (Remote.removeTask ready i err s) = Remote.tasks s
    /\ Remote.tasks (Remote.saveEditing ready i err s) = Remote.tasks s.
Proof.
  intros ready i err sl s Hl Hr. repeat split.
  - simpl. now apply map_absent.
  - simpl. now apply filter_absent.
  - unfold Local.saveEditing. destruct (negb _); simpl; [reflexivity|now apply map_absent].
  - unfold Remote.toggleTask, Remote.toggleTask_begin.
    now rewrite (find_by_id_none _ _ Hr).
  - unfold Remote.removeTask, Remote.removeTask_begin, Remote.await.
    destruct (Remote.remoteUser ready s); simpl; [destruct err; simpl|];
      auto using filter_absent.
  - unfold Remote.saveEditing, Remote.saveEditing_begin, Remote.await.
    destruct (negb _); simpl; [reflexivity|].
    destruct (Remote.remoteUser ready s); simpl; [destruct err; simpl|];
      auto using map_absent.
Qed.

Lemma absent_id_noop_witness :
  Local.tasks (Local.toggleTask (INum 3) local_AB) = [taskA; taskB]
  /\ Remote.tasks (Remote.removeTask true (INum 3) (Some offline) alice_AB) = [taskA; taskB].
Proof.
  assert (Hl : ~ In (INum 3) (ids (Local.tasks local_AB))).
  { simpl. intros [H|[H|[]]]; discriminate H. }
  assert (Hr : ~ In (INum 3) (ids (Remote.tasks alice_AB))).
  { simpl. intros [H|[H|[]]]; discriminate H. }
  pose proof (absent_id_noop true (INum 3) (Some offline) local_AB alice_AB Hl Hr) as H.
  split; [exact (proj1 H)|exact (proj1 (proj2 (proj2 (proj2 (proj2 H)))))].
Defined.

(** ** Toggling twice *)

Lemma local_toggle_twice (i : Ident) (l : list Task) :
  map (fun t => if strict_eq (id t) i then with_done (negb (done t)) t else t)
      (map (fun t => if strict_eq (id t) i then with_done (negb (done t)) t else t) l) = l.
Proof.
  rewrite map_map. rewrite <- (map_id l) at 2. apply map_ext. intros t.
  destruct (strict_eq (id t) i) eqn:E; simpl; rewrite E; [|reflexivity].
  simpl. rewrite negb_involutive. destruct t; reflexivity.
Qed.

Lemma find_by_id_set_done (i : Ident) (d : bool) (l : list Task) :
  find_by_id i (map (fun t => if strict_eq (id t) i then with_done d t else t) l)
  = option_map (with_done d) (find_by_id i l).
Proof.
  unfold find_by_id. induction l as [|t l IH]; simpl; [reflexivity|].
  destruct (strict_eq (id t) i) eqn:E; simpl; rewrite E; [reflexivity|exact IH].
Qed.

Lemma set_done_back (i : Ident) (d : bool) (l : list Task) :
  (forall t, In t l -> id t = i -> done t = d) ->
  map (fun t => if strict_eq (id t) i then with_done d t else t)
      (map (fun t => if strict_eq (id t) i then with_done (negb d) t else t) l) = l.
Proof.
  intros H. rewrite map_map. rewrite <- (map_id l) at 2. apply map_ext_in. intros t Ht.
  destruct (strict_eq (id t) i) eqn:E; simpl; rewrite E; [|reflexivity].
  apply strict_eq_true_iff in E. rewrite <- (H t Ht E). destruct t; reflexivity.
Qed.

Lemma toggleTask_success_tasks (ready : bool) (i : Ident) (s : Remote.State) :
  Remote.tasks (Remote.toggleTask ready i None s)
  = match find_by_id i (Remote.tasks s) with
    | Some current =>
        map (fun t => if strict_eq (id t) i then with_done (negb (done current)) t else t)
            (Remote.tasks s)
    | None => Remote.tasks s
    end.
Proof.
  unfold Remote.toggleTask. rewrite remote_await_success.
  unfold Remote.toggleTask_begin.
  destruct (find_by_id i (Remote.tasks s)); [|reflexivity].
  destruct (Remote.remoteUser ready s); reflexivity.
Qed.

(** Distinct identifiers make every identifier's tasks agree. *)
Lemma unique_ids_agree (i : Ident) (l : list Task) : unique_ids l -> agree_on_done i l.
Proof.
  unfold unique_ids, ids, agree_on_done.
  induction l as [|a l IH]; simpl; [tauto|].
  intros H t u Ht Hu It Iu. apply NoDup_cons_iff in H as [Hn Hd].
  destruct Ht as [Ht|Ht], Hu as [Hu|Hu].
  - congruence.
  - elim Hn. rewrite Ht, It, <- Iu. now apply in_map.
  - elim Hn. rewrite Hu, Iu, <- It. now apply in_map.
  - now apply (IH Hd t u).
Qed.

(** C7, as the code has it. Toggling the same identifier twice gives the
    task list back: always in the local component, which flips each task's
    own flag; in the remote component, which gives every task carrying the
    identifier the negation of the first one's flag, when the tasks
    carrying it agree on the flag (as they do when identifiers are
    distinct). Both requests succeed. *)
Theorem toggleTask_twice :
  forall (ready : bool) (i : Ident) (sl : Local.State) (s : Remote.State),
    agree_on_done i (Remote.tasks s) ->
    Local.tasks (Local.toggleTask i (Local.toggleTask i sl)) = Local.tasks sl
    /\ Remote.tasks (Remote.toggleTask ready i None (Remote.toggleTask ready i None s))
       = Remote.tasks s.
Proof.
  intros ready i sl s Hagree. split.
  - simpl. apply local_toggle_twice.
  - rewrite toggleTask_success_tasks. rewrite (toggleTask_success_tasks ready i s).
    destruct (find_by_id i (Remote.tasks s)) as [current|] eqn:F.
    + rewrite find_by_id_set_done, F. simpl. rewrite negb_involutive.
      apply set_done_back. intros t Ht It.
      apply find_by_id_some in F as [Hc Ic]. now apply Hagree.
    + now rewrite F.
Qed.

Lemma toggleTask_twice_witness :
  Remote.tasks (Remote.toggleTask true (INum 2) None
                  (Remote.toggleTask true (INum 2) None alice_AB)) = [taskA; taskB].
Proof.
  assert (H : agree_on_done (INum 2) (Remote.tasks alice_AB)).
  { apply unique_ids_agree. unfold unique_ids. simpl.
    repeat constructor; simpl; intuition discriminate. }
  exact (proj2 (toggleTask_twice true (INum 2) local_AB alice_AB H)).
Defined.

(** C7 as stated fails: [twins] holds two tasks with identifier 5, the
    older one completed; two toggles of 5 leave both open. *)
Lemma toggleTask_twice_counterexample :
  In (INum 5) (ids (Remote.tasks twins))
  /\ Remote.tasks (Remote.toggleTask true (INum 5) None
                     (Remote.toggleTask true (INum 5) None twins))
     <> Remote.tasks twins.
Proof.
  split.
  - vm_compute. now left.
  - vm_compute. intros H. discriminate H.
Qed.

(** ** Rollback of an optimistic update *)

(** When the reply is a failure, the handler puts back the task list it
    captured and shows the failure's message, whatever happened to the
    state while the request was in flight. *)
Lemma mutation_resume_failure (p : Remote.Pending) (e : Remote.Error) (s : Remote.State) :
  Remote.tasks (Remote.mutation_resume p (Some e) s) = Remote.prevTasks p
  /\ Remote.remoteError (Remote.mutation_resume p (Some e) s) = Remote.message e.
Proof. split; reflexivity. Qed.

(** The list captured is the one the handler started from. *)
Lemma pending_prevTasks (ready : bool) (i : Ident) (s : Remote.State) (p : Remote.Pending) :
  (snd (Remote.toggleTask_begin ready i s) = Some p -> Remote.prevTasks p = Remote.tasks s)
  /\ (snd (Remote.removeTask_begin ready i s) = Some p -> Remote.prevTasks p = Remote.tasks s)
  /\ (snd (Remote.clearCompleted_begin ready s) = Some p -> Remote.prevTasks p = Remote.tasks s)
  /\ (snd (Remote.saveEditing_begin ready i s) = Some p -> Remote.prevTasks p = Remote.tasks s).
Proof.
  unfold Remote.toggleTask_begin, Remote.removeTask_begin, Remote.clearCompleted_begin,
    Remote.saveEditing_begin.
  destruct (find_by_id i (Remote.tasks s)), (negb (truthy (trim (Remote.editingText s)))),
    (Remote.remoteUser ready s); simpl; repeat apply conj; intros H;
    try discriminate H; injection H as Hp; subst p; reflexivity.
Qed.

(** Rollback, for the four handlers run to completion: after a failed
    request the task list is the one from before the handler, and the
    status area holds the failure's message. *)
Lemma rollback_restores (ready : bool) (i : Ident) (e : Remote.Error) (s : Remote.State)
      (p : Remote.Pending) :
  (snd (Remote.toggleTask_begin ready i s) = Some p ->
   Remote.tasks (Remote.toggleTask ready i (Some e) s) = Remote.tasks s
   /\ Remote.remoteError (Remote.toggleTask ready i (Some e) s) = Remote.message e)
  /\ (snd (Remote.removeTask_begin ready i s) = Some p ->
      Remote.tasks (Remote.removeTask ready i (Some e) s) = Remote.tasks s
      /\ Remote.remoteError (Remote.removeTask ready i (Some e) s) = Remote.message e)
  /\ (snd (Remote.clearCompleted_begin ready s) = Some p ->
      Remote.tasks (Remote.clearCompleted ready (Some e) s) = Remote.tasks s
      /\ Remote.remoteError (Remote.clearCompleted ready (Some e) s) = Remote.message e)
  /\ (snd (Remote.saveEditing_begin ready i s) = Some p ->
      Remote.tasks (Remote.saveEditing ready i (Some e) s) = Remote.tasks s
      /\ Remote.remoteError (Remote.saveEditing ready i (Some e) s) = Remote.message e).
Proof.
  destruct (pending_prevTasks ready i s p) as (H1 & H2 & H3 & H4).
  unfold Remote.toggleTask, Remote.removeTask, Remote.clearCompleted, Remote.saveEditing,
    Remote.await.
  repeat apply conj; intros H; rewrite H; simpl; auto.
Qed.

(** A request is in flight exactly when somebody is logged in (and, for a
    toggle, the task exists; for an edit, the new title is not blank). *)
Lemma request_issued (ready : bool) (i : Ident) (s : Remote.State) (u : Remote.User) :
  Remote.remoteUser ready s = Some u ->
  (In i (ids (Remote.tasks s)) -> snd (Remote.toggleTask_begin ready i s) <> None)
  /\ snd (Remote.removeTask_begin ready i s) <> None
  /\ snd (Remote.clearCompleted_begin ready s) <> None
  /\ (blank (Remote.editingText s) = false -> snd (Remote.saveEditing_begin ready i s) <> None).
Proof.
  intros U.
  unfold Remote.toggleTask_begin, Remote.removeTask_begin, Remote.clearCompleted_begin,
    Remote.saveEditing_begin. rewrite U. repeat split; try discriminate.
  - intros Hin. destruct (find_by_id i (Remote.tasks s)) eqn:F; [discriminate|].
    exfalso. unfold ids in Hin. apply in_map_iff in Hin as (t & It & Ht).
    apply (find_none _ _ F) in Ht. apply strict_eq_false_iff in Ht. contradiction.
  - intros B. destruct (truthy (trim (Remote.editingText s))) eqn:T; [discriminate|].
    apply truthy_false_iff, trim_nil_iff in T. congruence.
Qed.

(** The spec's scenario: the request of an optimistic toggle fails. The
    list shown is the one from before the toggle and a message is shown. *)
Example toggle_failure_scenario :
  Remote.tasks (Remote.toggleTask true (INum 1) (Some offline) alice_AB) = [taskA; taskB]
  /\ Remote.remoteError (Remote.toggleTask true (INum 1) (Some offline) alice_AB)
     = js "Failed to fetch".
Proof. split; reflexivity. Qed.

(** C1 at its failing input: [alice] toggles task 1 and the request fails
    with an empty message. The task list is rolled back to the two tasks
    she had, and the status area stays empty. *)
Theorem toggleTask_silent_rollback :
  Remote.tasks (Remote.toggleTask true (INum 1) (Some silent_failure) alice_AB)
  = Remote.tasks alice_AB
  /\ Remote.remoteError (Remote.toggleTask true (INum 1) (Some silent_failure) alice_AB) = [].
Proof. split; reflexivity. Qed.

(** The load, for comparison, never leaves the status area empty after a
    failure. *)
Lemma load_finish_failure_shown (res : Remote.Response (list Remote.Row)) (e : Remote.Error)
      (s : Remote.State) :
  Remote.error res = Some e ->
  Remote.remoteError (Remote.load_finish res s) <> [].
Proof.
  intros H. unfold Remote.load_finish. rewrite H. simpl.
  destruct (Remote.message e); simpl; discriminate.
Qed.

(** ** Adding a task *)

Lemma truthy_negb_trim (x : jsstring) : trim x <> [] -> negb (truthy (trim x)) = false.
Proof. intros H. apply truthy_true_iff in H. now rewrite H. Qed.

Lemma falsy_negb_trim (x : jsstring) : trim x = [] -> negb (truthy (trim x)) = true.
Proof. intros H. now rewrite H. Qed.

(** C3, as the code has it. With a title that is not blank, add puts one
    task in front and empties the input: in the local component, in the
    remote one when nobody is logged in, and when the insert succeeded.
    When the insert failed the task list and the input are as before and
    the status area holds the failure's message. With a blank title add
    changes nothing at all. *)
Theorem addTask_effect :
  forall (ready : bool) (now : Z) (reply : Remote.Response Remote.Row)
         (sl : Local.State) (s : Remote.State),
    (trim (Local.text sl) <> [] ->
     length (Local.tasks (Local.addTask now sl)) = S (length (Local.tasks sl))
     /\ Local.text (Local.addTask now sl) = [])
    /\ (trim (Local.text sl) = [] -> Local.addTask now sl = sl)
    /\ (trim (Remote.text s) <> [] -> Remote.remoteUser ready s = None ->
        length (Remote.tasks (Remote.addTask ready now reply s)) = S (length (Remote.tasks s))
        /\ Remote.text (Remote.addTask ready now reply s) = [])
    /\ (trim (Remote.text s) <> [] -> Remote.remoteUser ready s <> None ->
        Remote.error reply = None -> Remote.data reply <> None ->
        length (Remote.tasks (Remote.addTask ready now reply s)) = S (length (Remote.tasks s))
        /\ Remote.text (Remote.addTask ready now reply s) = [])
    /\ (trim (Remote.text s) <> [] -> Remote.remoteUser ready s <> None ->
        forall e, Remote.error reply = Some e ->
        Remote.tasks (Remote.addTask ready now reply s) = Remote.tasks s
        /\ Remote.text (Remote.addTask ready now reply s) = Remote.text s
        /\ Remote.remoteError (Remote.addTask ready now reply s) = Remote.message e)
    /\ (trim (Remote.text s) = [] -> Remote.addTask ready now reply s = s).
Proof.
  intros ready now reply sl s.
  unfold Local.addTask, Remote.addTask, Remote.addTask_begin, Remote.await.
  repeat apply conj.
  - intros H. rewrite (truthy_negb_trim _ H). split; reflexivity.
  - intros H. now rewrite (falsy_negb_trim _ H).
  - intros H U. rewrite (truthy_negb_trim _ H), U. split; reflexivity.
  - intros H U E D. rewrite (truthy_negb_trim _ H).
    destruct (Remote.remoteUser ready s); [|contradiction]. simpl.
    unfold Remote.addTask_resume. rewrite E.
    destruct (Remote.data reply); [|contradiction]. split; reflexivity.
  - intros H U e E. rewrite (truthy_negb_trim _ H).
    destruct (Remote.remoteUser ready s); [|contradiction]. simpl.
    unfold Remote.addTask_resume. rewrite E. repeat split; reflexivity.
  - intros H. now rewrite (falsy_negb_trim _ H).
Qed.

Lemma addTask_effect_witness :
  (length (Local.tasks (Local.addTask 5 local_typing)) = 3
   /\ Local.text (Local.addTask 5 local_typing) = [])
  /\ Local.addTask 5 local_spaces = local_spaces
  /\ (length (Remote.tasks (Remote.addTask true 5 inserted_milk alice_typing)) = 3
      /\ Remote.text (Remote.addTask true 5 inserted_milk alice_typing) = [])
  /\ Remote.tasks (Remote.addTask true 5 insert_failed alice_typing) = [taskA; taskB].
Proof.
  destruct (addTask_effect true 5 inserted_milk local_typing alice_typing)
    as (L1 & _ & _ & R1 & _ & _).
  destruct (addTask_effect true 5 inserted_milk local_spaces alice_typing)
    as (_ & L2 & _).
  destruct (addTask_effect true 5 insert_failed local_typing alice_typing)
    as (_ & _ & _ & _ & R2 & _).
  repeat apply conj.
  - apply L1. vm_compute. discriminate.
  - apply L1. vm_compute. discriminate.
  - apply L2. vm_compute. reflexivity.
  - apply R1; vm_compute; try discriminate; reflexivity.
  - apply R1; vm_compute; try discriminate; reflexivity.
  - apply (R2 ltac:(vm_compute; discriminate) ltac:(vm_compute; discriminate) offline).
    reflexivity.
Defined.

(** C3 as stated fails where it says so explicitly: [alice] has typed
    "milk" and the insert fails; no task is added and the input keeps her
    text. *)
Lemma addTask_failed_insert_counterexample :
  trim (Remote.text alice_typing) <> []
  /\ ~ (length (Remote.tasks (Remote.addTask true 5 insert_failed alice_typing))
        = S (length (Remote.tasks alice_typing))
        /\ Remote.text (Remote.addTask true 5 insert_failed alice_typing) = []).
Proof.
  split.
  - vm_compute. discriminate.
  - vm_compute. intros [H _]. discriminate H.
Qed.

(** ** Invariants of a run

    A property [P] of task lists that survives the list updates of the
    handlers holds in every state of a run, given an assumption [A] on the
    events that bring tasks in from outside. *)

Lemma stored_setItem_tasks (P : list Task -> Prop) (v : list Task) (ls : LocalStorage) :
  P v -> stored P ls -> stored P (ignore_errors (setItem_tasks v ls) ls).
Proof.
  unfold stored, setItem_tasks. intros Hv Hs l.
  destruct (available ls); simpl; [|apply Hs]. intros H. now injection H as <-.
Qed.

Lemma stored_setItem_filter (P : list Task -> Prop) (v : jsstring) (ls : LocalStorage) :
  stored P ls -> stored P (ignore_errors (setItem_filter v ls) ls).
Proof.
  unfold stored, setItem_filter. intros Hs l. destruct (available ls); simpl; apply Hs.
Qed.

Lemma initialTasks_inv (P : list Task -> Prop) (ls : LocalStorage) :
  P defaultTasks -> stored P ls -> P (initialTasks ls).
Proof.
  unfold initialTasks, getItem_tasks, stored. intros Hd Hs.
  destruct (available ls); [|exact Hd].
  destruct (item_tasks ls); [now apply Hs|exact Hd].
Qed.

Section Invariant.

Variable P : list Task -> Prop.

Hypothesis P_default : P defaultTasks.
Hypothesis P_filter : forall p l, P l -> P (List.filter p l).
Hypothesis P_flags :
  forall (f : Task -> Task) l,
    (forall t, id (f t) = id t /\ title (f t) = title t) -> P l -> P (map f l).
Hypothesis P_title :
  forall i x l, blank x = false -> P l ->
                P (map (fun t => if strict_eq (id t) i then with_title x t else t) l).

Lemma P_set_done (i : Ident) (d : Task -> bool) (l : list Task) :
  P l -> P (map (fun t => if strict_eq (id t) i then with_done (d t) t else t) l).
Proof.
  apply P_flags. intros t. destruct (strict_eq (id t) i); auto.
Qed.

Section LocalRun.

Variable A : Local.State -> Local.Event -> Prop.

Hypothesis A_add :
  forall s now x, A s (Local.AddTask now) -> blank x = false -> P (Local.tasks s) ->
                  P (mkTask (INum now) x false :: Local.tasks s).

Lemma local_handle_tasks (e : Local.Event) (s : Local.State) :
  A s e -> P (Local.tasks s) -> P (Local.tasks (Local.handle e s)).
Proof.
  intros Ha Hp. destruct e; simpl; auto.
  - unfold Local.addTask.
    destruct (truthy (trim (Local.text s))) eqn:T; simpl; [|exact Hp].
    apply (A_add s now); auto using truthy_trim_titled.
  - now apply (P_set_done i (fun t => negb (done t))).
  - unfold Local.saveEditing.
    destruct (truthy (trim (Local.editingText s))) eqn:T; simpl; [|exact Hp].
    auto using truthy_trim_titled.
Qed.

Lemma local_handle_storage (e : Local.Event) (s : Local.State) :
  Local.localStorage (Local.handle e s) = Local.localStorage s.
Proof.
  destruct e; simpl; try reflexivity.
  - unfold Local.addTask. destruct (negb _); reflexivity.
  - unfold Local.saveEditing. destruct (negb _); reflexivity.
Qed.

Lemma local_commit_inv (prev cur : Local.State) :
  local_inv P cur -> local_inv P (Local.commit prev cur).
Proof.
  intros [Hp Hs]. split; [now rewrite local_commit_tasks|].
  unfold Local.commit.
  destruct (tasks_eq_dec _ _), (jsstring_eq_dec _ _); simpl;
    auto using stored_setItem_tasks, stored_setItem_filter.
Qed.

Lemma local_step_inv (e : Local.Event) (s : Local.State) :
  A s e -> local_inv P s -> local_inv P (Local.step e s).
Proof.
  intros Ha [Hp Hs]. apply local_commit_inv. split.
  - now apply local_handle_tasks.
  - now rewrite local_handle_storage.
Qed.

Lemma local_run_inv (es : list Local.Event) (s : Local.State) :
  along_local A es s -> local_inv P s -> local_inv P (Local.run es s).
Proof.
  revert s. induction es as [|e es IH]; simpl; intros s Ha Hi; [exact Hi|].
  apply IH; [apply Ha|]. now apply local_step_inv.
Qed.

Lemma local_mount_inv (ls : LocalStorage) (f0 : jsstring) :
  stored P ls -> local_inv P (Local.mount ls f0).
Proof.
  intros Hs. unfold Local.mount, local_inv. simpl. split.
  - now apply initialTasks_inv.
  - apply stored_setItem_filter, stored_setItem_tasks; [now apply initialTasks_inv|exact Hs].
Qed.

End LocalRun.

Section RemoteRun.

Variable ready : bool.
Variable A : Remote.State -> Remote.Event -> Prop.

Hypothesis A_add_local :
  forall s now reply x,
    A s (Remote.AddTask now reply) -> Remote.remoteUser ready s = None ->
    blank x = false -> P (Remote.tasks s) ->
    P (mkTask (INum now) x false :: Remote.tasks s).
Hypothesis A_add_remote :
  forall s now reply u d,
    A s (Remote.AddTask now reply) -> Remote.remoteUser ready s = Some u ->
    Remote.data reply = Some d -> P (Remote.tasks s) ->
    P (Remote.task_of_row d :: Remote.tasks s).
Hypothesis A_load :
  forall s next res1 res2,
    A s (Remote.SessionChange next res1 res2) ->
    P (map Remote.task_of_row (rows_of res1)) /\ P (map Remote.task_of_row (rows_of res2)).

Lemma persistTasks_inv (s : Remote.State) :
  remote_inv P s -> remote_inv P (Remote.persistTasks s).
Proof.
  intros [Hp Hs]. unfold Remote.persistTasks.
  destruct (Remote.user s); split; simpl; auto using stored_setItem_tasks.
Qed.

Lemma persistFilter_inv (s : Remote.State) :
  remote_inv P s -> remote_inv P (Remote.persistFilter s).
Proof.
  intros [Hp Hs]. split; simpl; auto using stored_setItem_filter.
Qed.

Lemma reconcile_inv (s : Remote.State) :
  remote_inv P s -> remote_inv P (fst (Remote.reconcile ready s)).
Proof.
  intros [Hp Hs]. unfold Remote.reconcile.
  destruct (negb ready); [now split|].
  destruct (_ && _).
  - simpl. unfold getItem_tasks.
    destruct (available (Remote.localStorage s)); [|now split].
    destruct (item_tasks (Remote.localStorage s)) eqn:E; split; simpl; auto.
  - destruct (Remote.userId s) as [uid|]; [destruct (truthy uid)|]; now split.
Qed.

Lemma effects_inv (prev cur : Remote.State) :
  remote_inv P cur -> remote_inv P (fst (Remote.effects ready prev cur)).
Proof.
  intros Hi. unfold Remote.effects.
  destruct (Remote.userId_eq_dec _ _); [simpl|apply reconcile_inv];
    case_ifs; auto using persistTasks_inv, persistFilter_inv.
Qed.

Lemma commit_inv (prev cur : Remote.State) :
  remote_inv P cur -> remote_inv P (fst (Remote.commit ready prev cur)).
Proof. intros Hi. unfold Remote.commit. simpl. auto using effects_inv. Qed.

Lemma mutation_resume_inv (p : Remote.Pending) (err : option Remote.Error)
      (s : Remote.State) :
  P (Remote.prevTasks p) -> remote_inv P s -> remote_inv P (Remote.mutation_resume p err s).
Proof. intros Hp [Ht Hs]. destruct err; split; simpl; auto. Qed.

(** The first part of an optimistic handler: its list update keeps [P],
    and the list it captures is the one it found. *)
Lemma optimistic_begin_inv (update : list Task -> list Task) (req : Remote.User -> Remote.Request)
      (s : Remote.State) :
  (P (Remote.tasks s) -> P (update (Remote.tasks s))) ->
  remote_inv P s ->
  let r := match Remote.remoteUser ready s with
           | Some u =>
               (Remote.setTasks update (Remote.setRemoteError [] s),
                Some (Remote.mkPending (req u) (Remote.tasks s)))
           | None => (Remote.setTasks update s, None)
           end in
  remote_inv P (fst r) /\ forall p, snd r = Some p -> P (Remote.prevTasks p).
Proof.
  intros Hu [Hp Hs]. destruct (Remote.remoteUser ready s); simpl; split;
    try (split; simpl; auto); intros p H; try discriminate H.
  injection H as <-. exact Hp.
Qed.

Lemma run_async_inv {K : Type} (Q : K -> Prop) (s : Remote.State)
      (r : Remote.State * option K) (k : K -> Remote.State -> Remote.State) :
  remote_inv P (fst r) ->
  (forall p, snd r = Some p -> Q p) ->
  (forall p s', Q p -> remote_inv P s' -> remote_inv P (k p s')) ->
  remote_inv P (Remote.run_async ready s r k).
Proof.
  intros Hr Hq Hk. unfold Remote.run_async, Remote.settle.
  destruct (snd r) as [p|]; auto using commit_inv.
Qed.

Lemma load_resume_inv (uid : jsstring) (res1 res2 : Remote.Response (list Remote.Row))
      (s : Remote.State) :
  P (map Remote.task_of_row (rows_of res1)) ->
  P (map Remote.task_of_row (rows_of res2)) ->
  remote_inv P s -> remote_inv P (Remote.load_resume uid res1 res2 s).
Proof.
  intros H1 H2 [Hp Hs]. unfold Remote.load_resume, Remote.load_finish.
  destruct (Remote.load_retry uid res1);
    [destruct (Remote.error res2)|destruct (Remote.error res1)];
    split; simpl; auto.
Qed.

Lemma addTask_inv (now : Z) (reply : Remote.Response Remote.Row) (s : Remote.State) :
  A s (Remote.AddTask now reply) -> remote_inv P s ->
  remote_inv P (Remote.run_async ready s (Remote.addTask_begin ready now s)
                                 (fun _ => Remote.addTask_resume reply)).
Proof.
  intros Ha [Hp Hs]. unfold Remote.run_async, Remote.addTask_begin, Remote.settle.
  destruct (truthy (trim (Remote.text s))) eqn:T; simpl; [|now apply commit_inv].
  destruct (Remote.remoteUser ready s) as [u|] eqn:U; simpl.
  - apply commit_inv.
    set (s1 := fst (Remote.commit ready s (Remote.setRemoteError [] s))).
    assert (H1 : remote_inv P s1) by (apply commit_inv; now split).
    assert (T1 : Remote.tasks s1 = Remote.tasks s).
    { apply (settle_same_user ready s (Remote.setRemoteError [] s)). reflexivity. }
    unfold Remote.addTask_resume.
    destruct (Remote.error reply); [split; [exact (proj1 H1)|exact (proj2 H1)]|].
    destruct (Remote.data reply) as [d|] eqn:D; [|exact H1].
    split; [|exact (proj2 H1)].
    change (P (Remote.task_of_row d :: Remote.tasks s1)).
    rewrite T1. now apply (A_add_remote s now reply u d).
  - apply commit_inv. split; simpl; [|exact Hs].
    apply (A_add_local s now reply); auto using truthy_trim_titled.
Qed.

Lemma optimistic_inv (r : Remote.State * option Remote.Pending)
      (err : option Remote.Error) (s : Remote.State) :
  remote_inv P (fst r) ->
  (forall p, snd r = Some p -> P (Remote.prevTasks p)) ->
  remote_inv P (Remote.run_async ready s r (fun p => Remote.mutation_resume p err)).
Proof.
  intros Hr Hq.
  apply (run_async_inv (fun p => P (Remote.prevTasks p))); auto.
  intros p s' Hp Hs'. now apply mutation_resume_inv.
Qed.

Lemma remote_step_inv (e : Remote.Event) (s : Remote.State) :
  A s e -> remote_inv P s -> remote_inv P (Remote.step ready e s).
Proof.
  intros Ha Hi. pose proof Hi as [Hp Hs].
  destruct e; unfold Remote.step; try (apply commit_inv; split; simpl; assumption).
  - now apply addTask_inv.
  - unfold Remote.toggleTask_begin.
    destruct (find_by_id i (Remote.tasks s)) as [current|];
      [|apply optimistic_inv; simpl; [assumption|discriminate]].
    destruct (optimistic_begin_inv
                (map (fun t => if strict_eq (id t) i
                               then with_done (negb (done current)) t else t))
                (fun u => Remote.UpdateDone (negb (done current)) i (Remote.user_id u)) s
                (P_set_done i (fun _ => negb (done current)) (Remote.tasks s)) Hi)
      as [H1 H2].
    apply optimistic_inv; [exact H1|exact H2].
  - destruct (optimistic_begin_inv
                (List.filter (fun t => negb (strict_eq (id t) i)))
                (fun u => Remote.DeleteById i (Remote.user_id u)) s
                (P_filter _ (Remote.tasks s)) Hi)
      as [H1 H2].
    apply optimistic_inv; [exact H1|exact H2].
  - destruct (optimistic_begin_inv
                (List.filter (fun t => negb (done t)))
                (fun u => Remote.DeleteDone (Remote.user_id u)) s
                (P_filter _ (Remote.tasks s)) Hi)
      as [H1 H2].
    apply optimistic_inv; [exact H1|exact H2].
  - unfold Remote.saveEditing_begin.
    destruct (truthy (trim (Remote.editingText s))) eqn:T; simpl;
      [|apply optimistic_inv; simpl; [assumption|discriminate]].
    apply optimistic_inv; destruct (Remote.remoteUser ready s); simpl;
      try (split; simpl; auto using truthy_trim_titled);
      intros p H; try discriminate H.
    injection H as <-. exact Hp.
  - destruct (A_load _ _ _ _ Ha) as [H1 H2].
    assert (Hc : remote_inv P (fst (Remote.commit ready s (Remote.setSession next s)))).
    { apply commit_inv. now split. }
    destruct (snd (Remote.commit ready s (Remote.setSession next s))); [|exact Hc].
    apply commit_inv. now apply load_resume_inv.
Qed.

Lemma remote_run_inv (es : list Remote.Event) (s : Remote.State) :
  along_remote ready A es s -> remote_inv P s -> remote_inv P (Remote.run ready es s).
Proof.
  revert s. induction es as [|e es IH]; simpl; intros s Ha Hi; [exact Hi|].
  apply IH; [apply Ha|]. now apply remote_step_inv.
Qed.

Lemma remote_mount_inv (ls : LocalStorage) (f0 : jsstring) :
  stored P ls -> remote_inv P (Remote.mount ready ls f0).
Proof.
  intros Hs. unfold Remote.mount.
  apply reconcile_inv, persistFilter_inv, persistTasks_inv. split; simpl; [|exact Hs].
  now apply initialTasks_inv.
Qed.

End RemoteRun.

End Invariant.

(** ** Distinct identifiers *)

Lemma unique_ids_default : unique_ids defaultTasks.
Proof. unfold unique_ids. simpl. repeat constructor; simpl; intuition discriminate. Qed.

Lemma unique_ids_flags (f : Task -> Task) (l : list Task) :
  (forall t, id (f t) = id t /\ title (f t) = title t) -> unique_ids l -> unique_ids (map f l).
Proof.
  intros H. unfold unique_ids. rewrite ids_map_keep; [auto|]. intros t. apply H.
Qed.

Lemma unique_ids_title (i : Ident) (x : jsstring) (l : list Task) :
  blank x = false -> unique_ids l ->
  unique_ids (map (fun t => if strict_eq (id t) i then with_title x t else t) l).
Proof.
  intros _. unfold unique_ids. rewrite ids_map_keep; [auto|].
  intros t. destruct (strict_eq (id t) i); reflexivity.
Qed.

Lemma unique_ids_cons (t : Task) (l : list Task) :
  ~ In (id t) (ids l) -> unique_ids l -> unique_ids (t :: l).
Proof. intros Hn Hd. unfold unique_ids. simpl. now constructor. Qed.

Lemma unique_ids_rows (l : list Remote.Row) :
  NoDup (map Remote.row_id l) -> unique_ids (map Remote.task_of_row l).
Proof.
  unfold unique_ids, ids. rewrite map_map. simpl. auto.
Qed.

(** C4, as the code has it. The component never checks identifiers; they
    stay distinct as long as its environment hands out fresh ones. From a
    first render over a store whose task list (if any) has distinct
    identifiers, and along a run in which every clock reading used for a
    local task and every key the backend assigns to an inserted row is not
    the identifier of a task in the list, and every load delivers rows with
    distinct keys, the tasks of the list have distinct identifiers in every
    state, in both components. *)
Theorem unique_ids_invariant :
  forall (ready : bool) (ls : LocalStorage) (f0 : jsstring)
         (els : list Local.Event) (es : list Remote.Event),
    stored unique_ids ls ->
    along_local fresh_local els (Local.mount ls f0) ->
    along_remote ready (fresh_remote ready) es (Remote.mount ready ls f0) ->
    unique_ids (Local.tasks (Local.run els (Local.mount ls f0)))
    /\ unique_ids (Remote.tasks (Remote.run ready es (Remote.mount ready ls f0))).
Proof.
  intros ready ls f0 els es Hs Hl Hr. split.
  - apply (local_run_inv unique_ids NoDup_ids_filter unique_ids_flags unique_ids_title
             fresh_local); auto.
    + intros s now x Ha _ Hp. now apply unique_ids_cons.
    + apply local_mount_inv; auto using unique_ids_default.
  - apply (remote_run_inv unique_ids NoDup_ids_filter unique_ids_flags unique_ids_title
             ready (fresh_remote ready)); auto.
    + intros s now reply x Ha U _ Hp. simpl in Ha. rewrite U in Ha.
      now apply unique_ids_cons.
    + intros s now reply u d Ha U D Hp. simpl in Ha. rewrite U in Ha.
      apply unique_ids_cons; auto. now apply Ha.
    + intros s next res1 res2 [H1 H2]. split; now apply unique_ids_rows.
    + apply remote_mount_inv; auto using unique_ids_default.
Qed.

Lemma unique_ids_invariant_witness :
  unique_ids (Local.tasks (Local.run local_session (Local.mount empty_storage FILTERS_all)))
  /\ unique_ids (Remote.tasks (Remote.run true remote_session
                                          (Remote.mount true empty_storage FILTERS_all))).
Proof.
  apply (unique_ids_invariant true empty_storage FILTERS_all local_session remote_session).
  - intros l H. discriminate H.
  - vm_compute. intuition discriminate.
  - vm_compute. repeat apply conj;
      match goal with
      | |- True => exact I
      | |- NoDup _ => repeat constructor; simpl; intuition discriminate
      | |- forall x, Some _ = Some x -> _ =>
          intros x H; injection H as <-; simpl; intuition discriminate
      | |- _ => intuition discriminate
      end.
Defined.

(** C4 as stated fails: two adds at the same clock reading give two tasks
    with the same identifier, in both components; and so does a remote add
    whose key is the identifier of a local task still on screen. *)
Lemma unique_ids_counterexample :
  ~ unique_ids (Local.tasks (Local.run same_clock (Local.mount empty_storage FILTERS_all)))
  /\ ~ unique_ids (Remote.tasks twins)
  /\ ~ unique_ids (Remote.tasks load_failed_then_add).
Proof.
  repeat apply conj; intros H; vm_compute in H; apply NoDup_cons_iff in H as [H _];
    apply H; now left.
Qed.

(** ** Titles *)

Lemma titled_default : titled defaultTasks.
Proof. repeat constructor. Qed.

Lemma titled_flags (f : Task -> Task) (l : list Task) :
  (forall t, id (f t) = id t /\ title (f t) = title t) -> titled l -> titled (map f l).
Proof.
  intros H. unfold titled. rewrite Forall_map. apply Forall_impl.
  intros t Ht. now rewrite (proj2 (H t)).
Qed.

Lemma titled_title (i : Ident) (x : jsstring) (l : list Task) :
  blank x = false -> titled l ->
  titled (map (fun t => if strict_eq (id t) i then with_title x t else t) l).
Proof.
  intros Hx. unfold titled. rewrite Forall_map. apply Forall_impl.
  intros t Ht. destruct (strict_eq (id t) i); auto.
Qed.

Lemma titled_rows_tasks (l : list Remote.Row) :
  titled_rows l -> titled (map Remote.task_of_row l).
Proof. unfold titled_rows, titled. now rewrite Forall_map. Qed.

(** Committing a blank edit is cancelling it. *)
Lemma saveEditing_blank_is_cancel (ready : bool) (i : Ident) (err : option Remote.Error)
      (sl : Local.State) (s : Remote.State) :
  (blank (Local.editingText sl) = true -> Local.saveEditing i sl = Local.cancelEditing sl)
  /\ (blank (Remote.editingText s) = true ->
      Remote.saveEditing ready i err s = Remote.cancelEditing s
      /\ snd (Remote.saveEditing_begin ready i s) = None).
Proof.
  unfold Local.saveEditing, Remote.saveEditing, Remote.saveEditing_begin, Remote.await.
  split; intros B; apply trim_nil_iff in B; rewrite B; simpl; auto.
Qed.

(** C8, as the code has it. Committing an edit whose text is blank leaves
    the task list as it is and only clears the editing state (no request
    is sent). No title typed by the user is stored blank: from a first
    render over a store whose task list (if any) has no blank title, no
    task of the local component ever has a blank title, and none of the
    remote component has one along a run in which the rows delivered by
    the backend (the row an insert returns, the rows of a load) have no
    blank title. Titles that come from the backend or from local storage
    are stored as they come. *)
Theorem titles_not_blank :
  forall (ready : bool) (i : Ident) (err : option Remote.Error)
         (sl : Local.State) (s : Remote.State)
         (ls : LocalStorage) (f0 : jsstring)
         (els : list Local.Event) (es : list Remote.Event),
    (blank (Local.editingText sl) = true ->
     Local.tasks (Local.saveEditing i sl) = Local.tasks sl
     /\ Local.editingId (Local.saveEditing i sl) = None
     /\ Local.editingText (Local.saveEditing i sl) = [])
    /\ (blank (Remote.editingText s) = true ->
        Remote.tasks (Remote.saveEditing ready i err s) = Remote.tasks s
        /\ Remote.editingId (Remote.saveEditing ready i err s) = None
        /\ Remote.editingText (Remote.saveEditing ready i err s) = [])
    /\ (stored titled ls ->
        titled (Local.tasks (Local.run els (Local.mount ls f0))))
    /\ (stored titled ls ->
        along_remote ready (fun _ => titled_remote) es (Remote.mount ready ls f0) ->
        titled (Remote.tasks (Remote.run ready es (Remote.mount ready ls f0)))).
Proof.
  intros ready i err sl s ls f0 els es.
  destruct (saveEditing_blank_is_cancel ready i err sl s) as [HL HR].
  repeat apply conj.
  - intros B. rewrite (HL B). repeat split; reflexivity.
  - intros B. rewrite (proj1 (HR B)). repeat split; reflexivity.
  - intros Hs.
    apply (local_run_inv titled titled_filter titled_flags titled_title (fun _ _ => True)).
    + intros s0 now x _ Hx Hp. constructor; assumption.
    + clear. generalize (Local.mount ls f0). induction els; simpl; auto.
    + apply local_mount_inv; auto using titled_default.
  - intros Hs Ha.
    apply (remote_run_inv titled titled_filter titled_flags titled_title
             ready (fun _ => titled_remote)); auto.
    + intros s0 now reply x _ _ Hx Hp. constructor; assumption.
    + intros s0 now reply u d Hd _ D Hp. constructor; [|assumption]. now apply Hd.
    + intros s0 next res1 res2 [H1 H2]. split; now apply titled_rows_tasks.
    + apply remote_mount_inv; auto using titled_default.
Qed.

Lemma titles_not_blank_witness :
  Local.tasks (Local.saveEditing (INum 1) local_editing_blank) = [taskA; taskB]
  /\ Remote.tasks (Remote.saveEditing true (INum 1) None alice_editing_blank) = [taskA; taskB]
  /\ titled (Local.tasks (Local.run local_session (Local.mount empty_storage FILTERS_all)))
  /\ titled (Remote.tasks (Remote.run true remote_session
                                      (Remote.mount true empty_storage FILTERS_all))).
Proof.
  destruct (titles_not_blank true (INum 1) None local_editing_blank alice_editing_blank
              empty_storage FILTERS_all local_session remote_session)
    as (L & R & IL & IR).
  assert (Hs : stored titled empty_storage) by (intros l H; discriminate H).
  repeat apply conj.
  - apply L. reflexivity.
  - apply R. reflexivity.
  - apply IL, Hs.
  - apply IR; [exact Hs|].
    vm_compute. repeat apply conj;
      match goal with
      | |- True => exact I
      | |- Forall _ _ => repeat constructor
      | |- forall x, _ = Some x -> _ =>
          intros x H; (discriminate H || (injection H as <-; reflexivity))
      end.
Defined.

(** C8 as stated fails in its last clause: the backend holds a row for
    [alice] whose title is two spaces; after her login the list has a task
    with that title. *)
Lemma titles_not_blank_counterexample :
  titled (Remote.tasks anonymous_AB)
  /\ ~ titled (Remote.tasks
                 (Remote.step true (Remote.SessionChange (Some alice) rows_blank no_rows)
                              anonymous_AB)).
Proof.
  split.
  - repeat constructor.
  - intros H. vm_compute in H. apply Forall_inv in H. discriminate H.
Qed.

(** ** Login and logout *)

(** The two queries of a load: newest first by [created_at]; if the reply
    is an error that mentions that column, by [id], descending. *)
Lemma load_queries (uid : jsstring) (res : Remote.Response (list Remote.Row))
      (e : Remote.Error) :
  Remote.load_request uid
  = Remote.Select (js "id,title,done,user_id,created_at") uid (js "created_at") false
  /\ (Remote.error res = Some e -> test_ci (js "created_at") (Remote.message e) = true ->
      Remote.load_retry uid res
      = Some (Remote.Select (js "id,title,done,user_id") uid (js "id") false))
  /\ (Remote.error res = None -> Remote.load_retry uid res = None).
Proof.
  unfold Remote.load_retry. repeat apply conj; [reflexivity| |];
    intros H; rewrite H; [intros T; now rewrite T|reflexivity].
Qed.

Lemma reconcile_login (s : Remote.State) (uid : jsstring) :
  Remote.userId s = Some uid -> truthy uid = true ->
  snd (Remote.reconcile true s) = Some uid.
Proof.
  intros U T. unfold Remote.reconcile. cbv zeta. cbn [negb]. rewrite U.
  cbn [Remote.truthy_opt]. rewrite T, andb_false_r. reflexivity.
Qed.

Lemma login_starts_load (s : Remote.State) (u : Remote.User) :
  Remote.session s = None -> truthy (Remote.user_id u) = true ->
  snd (Remote.commit true s (Remote.setSession (Some u) s)) = Some (Remote.user_id u).
Proof.
  intros S T. unfold Remote.commit, Remote.effects. cbn [snd].
  destruct (Remote.userId_eq_dec _ _) as [E|_].
  - unfold Remote.userId, Remote.user in E. simpl in E. rewrite S in E. discriminate E.
  - apply reconcile_login; [|exact T].
    unfold Remote.persistFilter, Remote.persistTasks.
    case_ifs; reflexivity.
Qed.

(** Login: the task list becomes the rows of the reply the load settles
    on, in the order of the reply. *)
Lemma login_loads_rows (s : Remote.State) (u : Remote.User)
      (res1 res2 : Remote.Response (list Remote.Row)) :
  Remote.session s = None -> truthy (Remote.user_id u) = true ->
  (Remote.error res1 = None ->
   Remote.tasks (Remote.step true (Remote.SessionChange (Some u) res1 res2) s)
   = map Remote.task_of_row (rows_of res1))
  /\ (forall e, Remote.error res1 = Some e ->
                test_ci (js "created_at") (Remote.message e) = true ->
                Remote.error res2 = None ->
                Remote.tasks (Remote.step true (Remote.SessionChange (Some u) res1 res2) s)
                = map Remote.task_of_row (rows_of res2)).
Proof.
  intros S T. unfold Remote.step. rewrite (login_starts_load s u S T). 
  set (s1 := fst (Remote.commit true s (Remote.setSession (Some u) s))).
  assert (U : forall res, Remote.userId s1 = Remote.userId (Remote.load_finish res s1)).
  { intros res. unfold Remote.load_finish. destruct (Remote.error res); reflexivity. }
  split.
  - intros E. unfold Remote.load_resume, Remote.load_retry. rewrite E.
    rewrite (proj1 (settle_same_user true s1 _ (U res1))).
    unfold Remote.load_finish. now rewrite E.
  - intros e E C E2. unfold Remote.load_resume, Remote.load_retry. rewrite E, C.
    rewrite (proj1 (settle_same_user true s1 _ (U res2))).
    unfold Remote.load_finish. now rewrite E2.
Qed.

(** Logout never changes the task list shown. With a working store, the
    persistence effect runs first (its dependency [user] changed) and
    stores the list shown; the reconciliation effect, declared after it,
    then reads that very list back. *)
Lemma logout_keeps_tasks (ready : bool) (s : Remote.State)
      (res1 res2 : Remote.Response (list Remote.Row)) :
  Remote.tasks (Remote.step ready (Remote.SessionChange None res1 res2) s) = Remote.tasks s.
Proof.
  unfold Remote.step.
  assert (N : snd (Remote.commit ready s (Remote.setSession None s)) = None
              /\ Remote.tasks (fst (Remote.effects ready s (Remote.setSession None s)))
                 = Remote.tasks s
              /\ Remote.session (fst (Remote.effects ready s (Remote.setSession None s)))
                 = None).
  { unfold Remote.commit. cbn [snd].
    destruct (Remote.userId_eq_dec (Remote.userId s) (Remote.userId (Remote.setSession None s)))
      as [E|E].
    - destruct (effects_same_user ready s _ E) as (H1 & H2 & H3 & _). auto.
    - unfold Remote.effects.
      destruct (Remote.userId_eq_dec _ _) as [E'|_]; [contradiction|].
      destruct (tasks_eq_dec _ _) as [_|T]; [|now elim T].
      destruct (jsstring_eq_dec _ _) as [_|F]; [|now elim F].
      destruct (Remote.User_eq_dec _ _) as [X|_].
      { elim E. unfold Remote.userId. now rewrite X. }
      unfold Remote.reconcile, Remote.persistTasks, getItem_tasks, setItem_tasks.
      destruct ready; simpl; [|auto].
      destruct (Remote.truthy_opt (Remote.prevUserIdRef s)); simpl; [|auto].
      destruct (available (Remote.localStorage s)) eqn:Av; simpl; rewrite ?Av; simpl; auto. }
  destruct N as (N1 & N2 & N3). rewrite N1.
  unfold Remote.commit. simpl.
  set (s1 := fst (Remote.effects ready s (Remote.setSession None s))) in *.
  assert (U : Remote.userId (Remote.setSession None s) = Remote.userId s1).
  { unfold Remote.userId, Remote.user. now rewrite N3. }
  now rewrite (proj1 (proj2 (effects_same_user ready _ s1 U))).
Qed.

(** C5 at its failing input. The component starts over an empty store and
    persists the two built-in tasks; [alice] logs in and her two remote
    tasks are shown; she logs out. The list shown is then still her remote
    list, which has also replaced the snapshot in local storage. *)
Theorem logout_shows_remote_tasks :
  item_tasks (Remote.localStorage before_login) = Some defaultTasks
  /\ Remote.tasks logged_in = [taskA; taskB]
  /\ item_tasks (Remote.localStorage logged_in) = Some defaultTasks
  /\ Remote.tasks logged_out = [taskA; taskB]
  /\ Remote.tasks logged_out <> defaultTasks
  /\ item_tasks (Remote.localStorage logged_out) = Some [taskA; taskB].
Proof.
  repeat apply conj; try (vm_compute; reflexivity).
  vm_compute. intros H. discriminate H.
Qed.

(** * Further properties *)

(** ** What [trim] keeps *)

Lemma trimStart_decompose (s : jsstring) :
  exists pre, s = pre ++ trimStart s /\ blank pre = true.
Proof.
  induction s as [|c s (pre & E & B)]; simpl.
  - now exists [].
  - destruct (is_ws c) eqn:W.
    + exists (c :: pre). simpl. rewrite W, B. split; [now f_equal|reflexivity].
    + now exists [].
Qed.

Lemma trimEnd_decompose (s : jsstring) :
  exists post, s = trimEnd s ++ post /\ blank post = true.
Proof.
  destruct (trimStart_decompose (rev s)) as (pre & E & B).
  exists (rev pre). split; [|now rewrite blank_rev].
  unfold trimEnd. rewrite <- rev_app_distr, <- E. symmetry. apply rev_involutive.
Qed.

Lemma trimStart_fixed (c : N) (s : jsstring) : is_ws c = false -> trimStart (c :: s) = c :: s.
Proof. intros W. simpl. now rewrite W. Qed.

Lemma trim_head (s r : jsstring) (c : N) : trim s = c :: r -> is_ws c = false.
Proof.
  intros H. destruct (trimEnd_decompose (trimStart s)) as (post & E & _).
  fold (trim s) in E. rewrite H in E. simpl in E. now apply trimStart_head in E.
Qed.

Lemma trim_last (s r : jsstring) (c : N) : trim s = r ++ [c] -> is_ws c = false.
Proof.
  unfold trim, trimEnd. intros H. apply (f_equal (@rev N)) in H.
  rewrite rev_involutive, rev_app_distr in H. simpl in H. now apply trimStart_head in H.
Qed.

(** A string that neither starts nor ends with white space is its own
    [trim]. *)
Lemma trim_fixed (x : jsstring) :
  (forall c r, x = c :: r -> is_ws c = false) ->
  (forall c r, x = r ++ [c] -> is_ws c = false) ->
  trim x = x.
Proof.
  intros Hh Hl. destruct x as [|c r]; [reflexivity|].
  unfold trim. rewrite (trimStart_fixed c r (Hh c r eq_refl)).
  unfold trimEnd. destruct (rev (c :: r)) as [|d q] eqn:R.
  - apply (proj1 (rev_nil_iff N (c :: r))) in R. discriminate R.
  - assert (W : is_ws d = false).
    { apply (Hl d (rev q)). rewrite <- (rev_involutive (c :: r)), R. reflexivity. }
    rewrite (trimStart_fixed d q W), <- R. apply rev_involutive.
Qed.

Lemma trim_idempotent (s : jsstring) : trim (trim s) = trim s.
Proof.
  apply trim_fixed; intros c r H; [now apply (trim_head s r)|now apply (trim_last s r)].
Qed.

(** [trim s] is [s] without a blank prefix and a blank suffix, and is not
    trimmed any further. *)
Lemma trim_spec (s : jsstring) :
  exists pre post,
    s = pre ++ trim s ++ post /\ blank pre = true /\ blank post = true
    /\ trim (trim s) = trim s.
Proof.
  destruct (trimStart_decompose s) as (pre & E1 & B1).
  destruct (trimEnd_decompose (trimStart s)) as (post & E2 & B2).
  exists pre, post. repeat split; auto using trim_idempotent.
  unfold trim. now rewrite <- E2.
Qed.

(** ** Adding a task: what is added *)

(** X1. With an input that is not blank and nobody logged in, add puts
    exactly one new task in front of the list and keeps the others behind
    it as they are: the new task is not completed, its identifier is the
    clock reading, and its title is the input without the white space
    around it (a blank prefix and a blank suffix are cut off, and nothing
    more could be trimmed). The local component does the same. *)
Theorem addTask_new_task :
  forall (ready : bool) (now : Z) (reply : Remote.Response Remote.Row)
         (sl : Local.State) (s : Remote.State),
    trim (Local.text sl) <> [] ->
    trim (Remote.text s) <> [] ->
    Remote.remoteUser ready s = None ->
    (exists x pre post,
        Local.tasks (Local.addTask now sl) = mkTask (INum now) x false :: Local.tasks sl
        /\ Local.text sl = pre ++ x ++ post
        /\ blank pre = true /\ blank post = true /\ blank x = false /\ trim x = x)
    /\ (exists x pre post,
           Remote.tasks (Remote.addTask ready now reply s)
           = mkTask (INum now) x false :: Remote.tasks s
           /\ Remote.text s = pre ++ x ++ post
           /\ blank pre = true /\ blank post = true /\ blank x = false /\ trim x = x).
Proof.
  intros ready now reply sl s Hl Hr U. split.
  - destruct (trim_spec (Local.text sl)) as (pre & post & E & B1 & B2 & I).
    exists (trim (Local.text sl)), pre, post.
    unfold Local.addTask. rewrite (truthy_negb_trim _ Hl).
    repeat split; auto using trim_not_blank.
  - destruct (trim_spec (Remote.text s)) as (pre & post & E & B1 & B2 & I).
    exists (trim (Remote.text s)), pre, post.
    unfold Remote.addTask, Remote.addTask_begin, Remote.await.
    rewrite (truthy_negb_trim _ Hr), U.
    repeat split; auto using trim_not_blank.
Qed.

Lemma addTask_new_task_witness :
  exists x pre post,
    Local.tasks (Local.addTask 5 local_typing) = mkTask (INum 5) x false :: [taskA; taskB]
    /\ js " milk " = pre ++ x ++ post
    /\ blank pre = true /\ blank post = true /\ blank x = false /\ trim x = x.
Proof.
  apply (addTask_new_task true 5 no_row local_typing
           (Remote.setText (js "milk") anonymous_AB));
    vm_compute; try discriminate; reflexivity.
Defined.

(** X2. Logged in, add asks the backend to insert a row with the trimmed
    input as title, not completed, for the user logged in. When the
    insert succeeds the task built from the row the backend returns (its
    key, its title, its flag with [null] read as false) is put in front of
    the list, and the others stay behind it as they are. *)
Theorem addTask_remote_insert :
  forall (ready : bool) (now : Z) (d : Remote.Row) (u : Remote.User) (s : Remote.State),
    trim (Remote.text s) <> [] ->
    Remote.remoteUser ready s = Some u ->
    snd (Remote.addTask_begin ready now s)
    = Some (Remote.Insert (trim (Remote.text s)) false (Remote.user_id u))
    /\ Remote.tasks (fst (Remote.addTask_begin ready now s)) = Remote.tasks s
    /\ Remote.tasks (Remote.addTask ready now (Remote.mkResponse (Some d) None) s)
       = mkTask (Remote.row_id d) (Remote.row_title d) (Remote.to_bool (Remote.row_done d))
           :: Remote.tasks s.
Proof.
  intros ready now d u s H U.
  unfold Remote.addTask, Remote.addTask_begin, Remote.await.
  rewrite (truthy_negb_trim _ H), U. repeat split; reflexivity.
Qed.

Lemma addTask_remote_insert_witness :
  snd (Remote.addTask_begin true 5 alice_typing)
  = Some (Remote.Insert (js "milk") false (js "alice"))
  /\ Remote.tasks (Remote.addTask true 5 inserted_milk alice_typing)
     = [mkTask (INum 7) (js "milk") false; taskA; taskB].
Proof.
  assert (H : trim (Remote.text alice_typing) <> []) by (vm_compute; discriminate).
  destruct (addTask_remote_insert true 5 (Remote.mkRow (INum 7) (js "milk") (Some false))
              alice alice_typing H eq_refl) as (H1 & _ & H3).
  split; [exact H1|exact H3].
Defined.

(** ** Deleting a task *)

Lemma filter_removes_id (i : Ident) (l : list Task) :
  removes_id i l (List.filter (fun t => negb (strict_eq (id t) i)) l).
Proof.
  induction l as [|t l IH]; simpl; [constructor|].
  destruct (strict_eq (id t) i) eqn:E; simpl.
  - apply ri_drop; [now apply strict_eq_true_iff|exact IH].
  - apply ri_keep; [now apply strict_eq_false_iff|exact IH].
Qed.

Lemma removes_id_In (i : Ident) (l r : list Task) :
  removes_id i l r -> forall t, In t r <-> In t l /\ id t <> i.
Proof.
  induction 1 as [|t l r Hd _ IH|t l r Hd _ IH]; intros u; simpl.
  - tauto.
  - rewrite IH. split; [tauto|]. intros [[->|Hin] Hu]; [contradiction|tauto].
  - rewrite IH. split; [intros [->|H]; tauto|]. tauto.
Qed.

Lemma removes_id_absent (i : Ident) (l r : list Task) :
  removes_id i l r -> ~ In i (ids r).
Proof.
  intros H Hin. unfold ids in Hin. apply in_map_iff in Hin as (t & It & Ht).
  apply (removes_id_In i l r H) in Ht. tauto.
Qed.

Lemma removeTask_begin_tasks (ready : bool) (i : Ident) (s : Remote.State) :
  Remote.tasks (fst (Remote.removeTask_begin ready i s))
  = List.filter (fun t => negb (strict_eq (id t) i)) (Remote.tasks s).
Proof.
  unfold Remote.removeTask_begin. destruct (Remote.remoteUser ready s); reflexivity.
Qed.

(** X3. Delete takes out exactly the tasks carrying the identifier and
    keeps the others as they are and in their order, so that afterwards no
    task carries it: in the local component; in the remote one as soon as
    the handler has run (logged in or not), and still so once the backend
    has confirmed the delete. *)
Theorem removeTask_correct :
  forall (ready : bool) (i : Ident) (sl : Local.State) (s : Remote.State),
    (removes_id i (Local.tasks sl) (Local.tasks (Local.removeTask i sl))
     /\ ~ In i (ids (Local.tasks (Local.removeTask i sl))))
    /\ (removes_id i (Remote.tasks s) (Remote.tasks (fst (Remote.removeTask_begin ready i s)))
        /\ ~ In i (ids (Remote.tasks (fst (Remote.removeTask_begin ready i s)))))
    /\ (removes_id i (Remote.tasks s) (Remote.tasks (Remote.removeTask ready i None s))
        /\ ~ In i (ids (Remote.tasks (Remote.removeTask ready i None s)))).
Proof.
  intros ready i sl s.
  assert (L : removes_id i (Local.tasks sl) (Local.tasks (Local.removeTask i sl)))
    by apply filter_removes_id.
  assert (B : removes_id i (Remote.tasks s)
                         (Remote.tasks (fst (Remote.removeTask_begin ready i s)))).
  { rewrite removeTask_begin_tasks. apply filter_removes_id. }
  assert (R : removes_id i (Remote.tasks s) (Remote.tasks (Remote.removeTask ready i None s))).
  { unfold Remote.removeTask. now rewrite remote_await_success. }
  repeat split; eauto using removes_id_absent.
Qed.

Lemma removes_id_none (i : Ident) (l r : list Task) :
  removes_id i l r -> ~ In i (ids l) -> r = l.
Proof.
  induction 1 as [|t l r Hd Hr IH|t l r Hd Hr IH]; simpl; intros A; [reflexivity| |].
  - elim A. now left.
  - f_equal. apply IH. tauto.
Qed.

Lemma removes_id_length (i : Ident) (l r : list Task) :
  removes_id i l r -> unique_ids l -> In i (ids l) -> S (length r) = length l.
Proof.
  induction 1 as [|t l r Hd Hr IH|t l r Hd Hr IH]; simpl; intros U Hin; [contradiction| |].
  - apply NoDup_cons_iff in U as [Hn U]. f_equal.
    rewrite Hd in Hn. now rewrite (removes_id_none i l r Hr Hn).
  - apply NoDup_cons_iff in U as [Hn U]. f_equal. apply IH; auto.
    destruct Hin as [Hin|Hin]; [contradiction|exact Hin].
Qed.

(** X4. In a list with distinct identifiers, deleting the identifier of a
    task of the list makes the list exactly one task shorter. *)
Theorem removeTask_one_less :
  forall (ready : bool) (i : Ident) (sl : Local.State) (s : Remote.State),
    unique_ids (Local.tasks sl) -> In i (ids (Local.tasks sl)) ->
    unique_ids (Remote.tasks s) -> In i (ids (Remote.tasks s)) ->
    S (length (Local.tasks (Local.removeTask i sl))) = length (Local.tasks sl)
    /\ S (length (Remote.tasks (Remote.removeTask ready i None s))) = length (Remote.tasks s).
Proof.
  intros ready i sl s Ul Il Ur Ir. split.
  - apply (removes_id_length i); auto. apply filter_removes_id.
  - apply (removes_id_length i); auto.
    unfold Remote.removeTask. rewrite remote_await_success, removeTask_begin_tasks.
    apply filter_removes_id.
Qed.

Lemma removeTask_one_less_witness :
  S (length (Remote.tasks (Remote.removeTask true (INum 2) None alice_AB))) = 2.
Proof.
  assert (U : unique_ids [taskA; taskB]).
  { unfold unique_ids. simpl. repeat constructor; simpl; intuition discriminate. }
  assert (I : In (INum 2) (ids [taskA; taskB])) by (simpl; tauto).
  exact (proj2 (removeTask_one_less true (INum 2) local_AB alice_AB U I U I)).
Defined.

(** ** Toggling: the flag does flip *)

Lemma Forall2_map_In {A B : Type} (R : A -> B -> Prop) (f : A -> B) (l : list A) :
  (forall a, In a l -> R a (f a)) -> Forall2 R l (map f l).
Proof.
  induction l as [|a l IH]; simpl; intros H; constructor; auto.
Qed.

Lemma Forall2_same_In {A : Type} (R : A -> A -> Prop) (l : list A) :
  (forall a, In a l -> R a a) -> Forall2 R l l.
Proof.
  induction l as [|a l IH]; simpl; intros H; constructor; auto.
Qed.

(** X5. A toggle flips the flag of every task carrying the identifier: in
    the local component always; in the remote one (request succeeding)
    when the tasks carrying the identifier agree on the flag, as they do
    when identifiers are distinct. *)
Theorem toggleTask_flips :
  forall (ready : bool) (i : Ident) (sl : Local.State) (s : Remote.State),
    agree_on_done i (Remote.tasks s) ->
    Forall2 (flipped_at i) (Local.tasks sl) (Local.tasks (Local.toggleTask i sl))
    /\ Forall2 (flipped_at i) (Remote.tasks s) (Remote.tasks (Remote.toggleTask ready i None s)).
Proof.
  intros ready i sl s Hagree. split.
  - simpl. apply Forall2_map_In. intros t _ It.
    apply strict_eq_true_iff in It. now rewrite It.
  - rewrite toggleTask_success_tasks.
    destruct (find_by_id i (Remote.tasks s)) as [current|] eqn:F.
    + apply find_by_id_some in F as [Hc Ic].
      apply Forall2_map_In. intros t Ht It.
      rewrite (Hagree t current Ht Hc It Ic).
      apply strict_eq_true_iff in It. now rewrite It.
    + apply Forall2_same_In. intros t Ht It. exfalso.
      apply (find_none _ _ F) in Ht. apply strict_eq_false_iff in Ht. contradiction.
Qed.

Lemma toggleTask_flips_witness :
  Forall2 (flipped_at (INum 2)) [taskA; taskB]
          (Remote.tasks (Remote.toggleTask true (INum 2) None alice_AB)).
Proof.
  assert (H : agree_on_done (INum 2) (Remote.tasks alice_AB)).
  { apply unique_ids_agree. unfold unique_ids. simpl.
    repeat constructor; simpl; intuition discriminate. }
  exact (proj2 (toggleTask_flips true (INum 2) local_AB alice_AB H)).
Defined.

(** ** Committing an edit *)

Lemma retitled_map (i : Ident) (x : jsstring) (l : list Task) :
  Forall2 (retitled_at i x) l
          (map (fun t => if strict_eq (id t) i then with_title x t else t) l).
Proof.
  apply Forall2_map_In. intros t _. unfold retitled_at.
  destruct (strict_eq (id t) i) eqn:E; simpl.
  - apply strict_eq_true_iff in E. repeat split; auto. intros H. contradiction.
  - apply strict_eq_false_iff in E. repeat split; auto. intros H. contradiction.
Qed.

(** X6. Committing an edit whose text is not blank gives the trimmed text
    as title to the tasks carrying the identifier and changes nothing else
    of the list (identifiers, flags, the other titles, order and length),
    and it closes the editor. In the remote component this is so as soon
    as the handler has run; when the request of a logged-in user then fails
    the list is put back, but the editor stays closed and the text typed is
    gone. *)
Theorem saveEditing_commits :
  forall (ready : bool) (i : Ident) (e : Remote.Error) (sl : Local.State) (s : Remote.State),
    trim (Local.editingText sl) <> [] ->
    trim (Remote.editingText s) <> [] ->
    (Forall2 (retitled_at i (trim (Local.editingText sl)))
             (Local.tasks sl) (Local.tasks (Local.saveEditing i sl))
     /\ Local.editingId (Local.saveEditing i sl) = None
     /\ Local.editingText (Local.saveEditing i sl) = [])
    /\ (Forall2 (retitled_at i (trim (Remote.editingText s)))
                (Remote.tasks s) (Remote.tasks (Remote.saveEditing ready i None s))
        /\ Remote.editingId (Remote.saveEditing ready i None s) = None
        /\ Remote.editingText (Remote.saveEditing ready i None s) = [])
    /\ (Remote.remoteUser ready s <> None ->
        Remote.tasks (Remote.saveEditing ready i (Some e) s) = Remote.tasks s
        /\ Remote.editingId (Remote.saveEditing ready i (Some e) s) = None
        /\ Remote.editingText (Remote.saveEditing ready i (Some e) s) = []).
Proof.
  intros ready i e sl s Hl Hr.
  unfold Local.saveEditing, Remote.saveEditing, Remote.saveEditing_begin, Remote.await.
  rewrite (truthy_negb_trim _ Hl), (truthy_negb_trim _ Hr).
  destruct (Remote.remoteUser ready s); simpl; repeat apply conj;
    try reflexivity; try apply retitled_map; intros U; try contradiction;
    repeat split; reflexivity.
Qed.

Lemma saveEditing_commits_witness :
  Remote.tasks (Remote.saveEditing true (INum 1) None alice_editing_milk)
  = [mkTask (INum 1) (js "milk") false; taskB]
  /\ Remote.tasks (Remote.saveEditing true (INum 1) (Some offline) alice_editing_milk)
     = [taskA; taskB]
  /\ Remote.editingText (Remote.saveEditing true (INum 1) (Some offline) alice_editing_milk)
     = [].
Proof.
  assert (Hl : trim (Local.editingText (Local.setEditingText (js "x") local_AB)) <> [])
    by (vm_compute; discriminate).
  assert (Hr : trim (Remote.editingText alice_editing_milk) <> [])
    by (vm_compute; discriminate).
  destruct (saveEditing_commits true (INum 1) offline _ alice_editing_milk Hl Hr)
    as (_ & _ & F).
  destruct (F ltac:(discriminate)) as (F1 & _ & F3).
  repeat apply conj; [reflexivity|exact F1|exact F3].
Defined.

(** X7. Opening the editor on a task of the list and committing without
    typing leaves the list as it is, when identifiers are distinct and the
    task's title has no white space around it (as every title the
    component itself stores); the editor is closed. In the remote component
    this holds whatever the backend replies. *)
Theorem edit_without_typing :
  forall (ready : bool) (t : Task) (err : option Remote.Error)
         (sl : Local.State) (s : Remote.State),
    trim (title t) = title t ->
    In t (Local.tasks sl) -> unique_ids (Local.tasks sl) ->
    In t (Remote.tasks s) -> unique_ids (Remote.tasks s) ->
    (Local.tasks (Local.saveEditing (id t) (Local.startEditing t sl)) = Local.tasks sl
     /\ Local.editingId (Local.saveEditing (id t) (Local.startEditing t sl)) = None)
    /\ (Remote.tasks (Remote.saveEditing ready (id t) err (Remote.startEditing t s))
        = Remote.tasks s
        /\ Remote.editingId (Remote.saveEditing ready (id t) err (Remote.startEditing t s))
           = None).
Proof.
  intros ready t err sl s T Il Ul Ir Ur.
  assert (K : forall l, In t l -> unique_ids l ->
                map (fun u => if strict_eq (id u) (id t) then with_title (title t) u else u) l
                = l).
  { intros l Hin U. rewrite <- (map_id l) at 2. apply map_ext_in. intros u Hu.
    destruct (strict_eq (id u) (id t)) eqn:E; [|reflexivity].
    apply strict_eq_true_iff in E.
    assert (u = t); [|subst u; now destruct t].
    clear - Hin Hu E U. unfold unique_ids, ids in U.
    induction l as [|a l IH]; simpl in *; [contradiction|].
    apply NoDup_cons_iff in U as [Hn U].
    destruct Hin as [Hin|Hin], Hu as [Hu|Hu]; try congruence; auto.
    - elim Hn. rewrite Hin, <- E. now apply in_map.
    - elim Hn. rewrite Hu, E. now apply in_map. }
  unfold Local.saveEditing, Remote.saveEditing, Remote.saveEditing_begin, Remote.await.
  simpl. rewrite T.
  destruct (truthy (title t)); simpl; [|repeat split; reflexivity].
  change (Remote.remoteUser ready (Remote.startEditing t s))
    with (Remote.remoteUser ready s).
  destruct (Remote.remoteUser ready s); simpl; [destruct err; simpl|];
    repeat split; auto.
Qed.

Lemma edit_without_typing_witness :
  Remote.tasks (Remote.saveEditing true (INum 1) (Some offline)
                  (Remote.startEditing taskA alice_AB)) = [taskA; taskB].
Proof.
  assert (U : unique_ids [taskA; taskB]).
  { unfold unique_ids. simpl. repeat constructor; simpl; intuition discriminate. }
  assert (I : In taskA [taskA; taskB]) by now left.
  exact (proj1 (proj2 (edit_without_typing true taskA (Some offline) local_AB alice_AB
                         eq_refl I U I U))).
Defined.

(** ** Counting and the views *)

Lemma filter_split_length {A : Type} (p : A -> bool) (l : list A) :
  length (List.filter (fun a => negb (p a)) l) + length (List.filter p l) = length l.
Proof.
  induction l as [|a l IH]; simpl; [reflexivity|].
  destruct (p a); simpl; lia.
Qed.

Lemma hasCompleted_iff (l : list Task) :
  hasCompleted l = true <-> exists t, In t l /\ done t = true.
Proof.
  unfold hasCompleted, doneCount. rewrite Nat.ltb_lt. split.
  - destruct (List.filter (fun t => done t) l) as [|t r] eqn:F; simpl; [lia|].
    intros _. exists t.
    assert (H : In t (List.filter (fun t => done t) l)) by (rewrite F; now left).
    now apply filter_In in H.
  - intros (t & Ht & Hd).
    assert (H : In t (List.filter (fun t => done t) l)) by now apply filter_In.
    destruct (List.filter (fun t => done t) l); [contradiction|simpl; lia].
Qed.

Lemma hasCompleted_false_iff (l : list Task) :
  hasCompleted l = false <-> Forall (fun t => done t = false) l.
Proof.
  rewrite Forall_forall. split.
  - intros H t Ht. destruct (done t) eqn:D; [|reflexivity].
    assert (C : hasCompleted l = true) by (apply hasCompleted_iff; eauto). congruence.
  - intros H. destruct (hasCompleted l) eqn:C; [|reflexivity].
    apply hasCompleted_iff in C as (t & Ht & Hd). rewrite (H t Ht) in Hd. discriminate.
Qed.

Lemma filter_all_true {A : Type} (p : A -> bool) (l : list A) :
  List.filter p l = l <-> Forall (fun a => p a = true) l.
Proof.
  induction l as [|a l IH]; simpl; [split; auto|].
  destruct (p a) eqn:E.
  - rewrite Forall_cons_iff, <- IH. split; [intros H; injection H; auto|intros [_ ->]; auto].
  - split.
    + intros H. exfalso.
      assert (L : length (List.filter p l) <= length l) by apply filter_length_le.
      rewrite H in L. simpl in L. lia.
    + intros H. apply Forall_inv in H. congruence.
Qed.

(** X8. The header's counter and the views add up: the tasks shown under
    [active] and the completed tasks counted make up the whole list, and
    so do the tasks shown under [active] and those shown under [done]; a
    task is in one view exactly when it is in the list and has that flag.
    The bulk-clear control is enabled exactly when some task is completed. *)
Theorem views_partition :
  forall (tasks : list Task) (t : Task),
    length (filteredTasks FILTERS_active tasks) + doneCount tasks = length tasks
    /\ length (filteredTasks FILTERS_active tasks) + length (filteredTasks FILTERS_done tasks)
       = length tasks
    /\ (In t (filteredTasks FILTERS_active tasks) <-> In t tasks /\ done t = false)
    /\ (In t (filteredTasks FILTERS_done tasks) <-> In t tasks /\ done t = true)
    /\ (hasCompleted tasks = true <-> exists u, In u tasks /\ done u = true).
Proof.
  intros tasks t. rewrite filteredTasks_active, filteredTasks_done.
  split; [|split; [|split; [|split]]].
  - apply (filter_split_length (fun t => done t)).
  - apply (filter_split_length (fun t => done t)).
  - apply filteredTasks_In.
  - apply filteredTasks_In.
  - apply hasCompleted_iff.
Qed.

Lemma filter_disjoint (l : list Task) :
  List.filter (fun t => negb (done t)) (List.filter (fun t => done t) l) = []
  /\ List.filter (fun t => done t) (List.filter (fun t => negb (done t)) l) = [].
Proof.
  induction l as [|t l [IH1 IH2]]; simpl; [now split|].
  destruct (done t) eqn:D; simpl; rewrite ?D; simpl; now split.
Qed.

(** X9. Filtering a view again with the same filter changes nothing, for
    every filter value; and no task of one of the views [active] and
    [done] shows in the other. *)
Theorem filteredTasks_idempotent :
  forall (filter : jsstring) (tasks : list Task),
    filteredTasks filter (filteredTasks filter tasks) = filteredTasks filter tasks
    /\ filteredTasks FILTERS_active (filteredTasks FILTERS_done tasks) = []
    /\ filteredTasks FILTERS_done (filteredTasks FILTERS_active tasks) = [].
Proof.
  intros filter tasks. repeat apply conj.
  - unfold filteredTasks.
    destruct (jsstring_eqb filter FILTERS_active);
      [|destruct (jsstring_eqb filter FILTERS_done)]; try reflexivity;
      apply filter_all_true, Forall_forall; intros t Ht; now apply filter_In in Ht.
  - rewrite filteredTasks_active, filteredTasks_done. apply filter_disjoint.
  - rewrite filteredTasks_active, filteredTasks_done. apply filter_disjoint.
Qed.

(** ** After clear-completed *)

Lemma cleared_facts (l : list Task) :
  let r := List.filter (fun t => negb (done t)) l in
  hasCompleted r = false
  /\ doneCount r = 0
  /\ filteredTasks FILTERS_active r = filteredTasks FILTERS_active l
  /\ filteredTasks FILTERS_done r = []
  /\ List.filter (fun t => negb (done t)) r = r
  /\ (hasCompleted l = false <-> r = l).
Proof.
  simpl.
  assert (A : Forall (fun t => done t = false) (List.filter (fun t => negb (done t)) l)).
  { apply Forall_forall. intros t Ht. apply filter_In in Ht.
    now destruct (done t); simpl in Ht. }
  assert (I : List.filter (fun t => negb (done t)) (List.filter (fun t => negb (done t)) l)
              = List.filter (fun t => negb (done t)) l).
  { apply filter_all_true. apply Forall_impl with (2 := A). intros t ->. reflexivity. }
  assert (D : List.filter (fun t => done t) (List.filter (fun t => negb (done t)) l) = []).
  { apply filter_disjoint. }
  split; [|split; [|split; [|split; [|split]]]].
  - now apply hasCompleted_false_iff.
  - unfold doneCount. now rewrite D.
  - rewrite !filteredTasks_active. exact I.
  - rewrite filteredTasks_done. exact D.
  - exact I.
  - rewrite hasCompleted_false_iff, filter_all_true. split; apply Forall_impl; intros t.
    + now intros ->.
    + now destruct (done t).
Qed.

(** X10. After clear-completed no task is completed: the counter is 0,
    the bulk-clear control is disabled, the [done] view is empty and the
    [active] view is what it was; clearing again changes nothing. And the
    control is disabled exactly when clearing would leave the list as it
    is. This holds in the local component and, the delete succeeding, in
    the remote one. *)
Theorem clearCompleted_after :
  forall (ready : bool) (sl : Local.State) (s : Remote.State),
    (hasCompleted (Local.tasks (Local.clearCompleted sl)) = false
     /\ doneCount (Local.tasks (Local.clearCompleted sl)) = 0
     /\ filteredTasks FILTERS_active (Local.tasks (Local.clearCompleted sl))
        = filteredTasks FILTERS_active (Local.tasks sl)
     /\ filteredTasks FILTERS_done (Local.tasks (Local.clearCompleted sl)) = []
     /\ Local.tasks (Local.clearCompleted (Local.clearCompleted sl))
        = Local.tasks (Local.clearCompleted sl)
     /\ (hasCompleted (Local.tasks sl) = false
         <-> Local.tasks (Local.clearCompleted sl) = Local.tasks sl))
    /\ (hasCompleted (Remote.tasks (Remote.clearCompleted ready None s)) = false
        /\ doneCount (Remote.tasks (Remote.clearCompleted ready None s)) = 0
        /\ filteredTasks FILTERS_active (Remote.tasks (Remote.clearCompleted ready None s))
           = filteredTasks FILTERS_active (Remote.tasks s)
        /\ filteredTasks FILTERS_done (Remote.tasks (Remote.clearCompleted ready None s)) = []
        /\ Remote.tasks (Remote.clearCompleted ready None (Remote.clearCompleted ready None s))
           = Remote.tasks (Remote.clearCompleted ready None s)
        /\ (hasCompleted (Remote.tasks s) = false
            <-> Remote.tasks (Remote.clearCompleted ready None s) = Remote.tasks s)).
Proof.
  intros ready sl s.
  assert (R : forall s', Remote.tasks (Remote.clearCompleted ready None s')
                         = List.filter (fun t => negb (done t)) (Remote.tasks s')).
  { intros s'. unfold Remote.clearCompleted.
    now rewrite remote_await_success, clearCompleted_begin_tasks. }
  split.
  - exact (cleared_facts (Local.tasks sl)).
  - rewrite (R (Remote.clearCompleted ready None s)), !(R s).
    exact (cleared_facts (Remote.tasks s)).
Qed.

(** ** The requests *)

(** X11. A handler sends a request only when the client is configured and
    somebody is logged in, and the request is made for that user: add
    inserts for them, toggle, edit and delete name their row and them,
    clear names them only. *)
Theorem requests_scoped :
  forall (ready : bool) (now : Z) (i : Ident) (s : Remote.State)
         (r : Remote.Request) (p : Remote.Pending),
    (snd (Remote.addTask_begin ready now s) = Some r ->
     exists u, ready = true /\ Remote.session s = Some u
               /\ request_user r = Remote.user_id u /\ request_row r = None)
    /\ (snd (Remote.toggleTask_begin ready i s) = Some p ->
        exists u, ready = true /\ Remote.session s = Some u
                  /\ request_user (Remote.request p) = Remote.user_id u
                  /\ request_row (Remote.request p) = Some i)
    /\ (snd (Remote.removeTask_begin ready i s) = Some p ->
        exists u, ready = true /\ Remote.session s = Some u
                  /\ request_user (Remote.request p) = Remote.user_id u
                  /\ request_row (Remote.request p) = Some i)
    /\ (snd (Remote.clearCompleted_begin ready s) = Some p ->
        exists u, ready = true /\ Remote.session s = Some u
                  /\ request_user (Remote.request p) = Remote.user_id u
                  /\ request_row (Remote.request p) = None)
    /\ (snd (Remote.saveEditing_begin ready i s) = Some p ->
        exists u, ready = true /\ Remote.session s = Some u
                  /\ request_user (Remote.request p) = Remote.user_id u
                  /\ request_row (Remote.request p) = Some i).
Proof.
  intros ready now i s r p.
  unfold Remote.addTask_begin, Remote.toggleTask_begin, Remote.removeTask_begin,
    Remote.clearCompleted_begin, Remote.saveEditing_begin, Remote.remoteUser, Remote.user.
  destruct ready, (Remote.session s) as [u|], (find_by_id i (Remote.tasks s)),
    (negb (truthy (trim (Remote.text s)))),
    (negb (truthy (trim (Remote.editingText s)))); simpl;
    repeat apply conj; intros H; try discriminate H;
    injection H as H; subst; exists u; repeat split; reflexivity.
Qed.

Lemma requests_scoped_witness :
  exists u, Remote.session alice_AB = Some u
            /\ request_user (Remote.DeleteById (INum 2) (js "alice")) = Remote.user_id u.
Proof.
  destruct (requests_scoped true 0 (INum 2) alice_AB (Remote.DeleteDone [])
              (Remote.mkPending (Remote.DeleteById (INum 2) (js "alice")) [taskA; taskB]))
    as (_ & _ & H & _).
  destruct (H eq_refl) as (u & _ & S & U & _). now exists u.
Defined.

(** X12. The flag a toggle asks the backend to store is the one the list
    shows right away for every task carrying the identifier: the negation
    of the flag of the first of them. *)
Theorem toggleTask_request_matches :
  forall (ready : bool) (i : Ident) (s : Remote.State) (p : Remote.Pending),
    snd (Remote.toggleTask_begin ready i s) = Some p ->
    exists current d u,
      find_by_id i (Remote.tasks s) = Some current
      /\ d = negb (done current)
      /\ Remote.request p = Remote.UpdateDone d i u
      /\ Forall (fun t => id t = i -> done t = d)
                (Remote.tasks (fst (Remote.toggleTask_begin ready i s))).
Proof.
  intros ready i s p. unfold Remote.toggleTask_begin.
  destruct (find_by_id i (Remote.tasks s)) as [current|]; [|discriminate].
  destruct (Remote.remoteUser ready s) as [u|]; simpl; [|discriminate].
  intros H. injection H as <-.
  exists current, (negb (done current)), (Remote.user_id u). repeat split.
  apply Forall_forall. intros t Ht It. apply in_map_iff in Ht as (t0 & <- & _).
  destruct (strict_eq (id t0) i) eqn:E; [reflexivity|].
  apply strict_eq_false_iff in E. contradiction.
Qed.

Lemma toggleTask_request_matches_witness :
  exists current d u,
    find_by_id (INum 2) [taskA; taskB] = Some current
    /\ d = negb (done current)
    /\ Remote.UpdateDone false (INum 2) (js "alice") = Remote.UpdateDone d (INum 2) u
    /\ Forall (fun t => id t = INum 2 -> done t = d)
              (Remote.tasks (fst (Remote.toggleTask_begin true (INum 2) alice_AB))).
Proof.
  exact (toggleTask_request_matches true (INum 2) alice_AB
           (Remote.mkPending (Remote.UpdateDone false (INum 2) (js "alice")) [taskA; taskB])
           eq_refl).
Defined.

(** ** The status area *)

(** X13. A handler that sends a request first empties the status area, so
    after a success the area is empty whatever it held; a handler that
    sends none (nobody logged in, a toggle of an absent identifier, a
    blank title) leaves the area as it is. *)
Theorem remoteError_after :
  forall (ready : bool) (now : Z) (i : Ident) (d : Remote.Row) (err : option Remote.Error)
         (reply : Remote.Response Remote.Row) (s : Remote.State),
    (snd (Remote.addTask_begin ready now s) <> None ->
     Remote.remoteError (Remote.addTask ready now (Remote.mkResponse (Some d) None) s) = [])
    /\ (snd (Remote.toggleTask_begin ready i s) <> None ->
        Remote.remoteError (Remote.toggleTask ready i None s) = [])
    /\ (snd (Remote.removeTask_begin ready i s) <> None ->
        Remote.remoteError (Remote.removeTask ready i None s) = [])
    /\ (snd (Remote.clearCompleted_begin ready s) <> None ->
        Remote.remoteError (Remote.clearCompleted ready None s) = [])
    /\ (snd (Remote.saveEditing_begin ready i s) <> None ->
        Remote.remoteError (Remote.saveEditing ready i None s) = [])
    /\ (snd (Remote.addTask_begin ready now s) = None ->
        Remote.remoteError (Remote.addTask ready now reply s) = Remote.remoteError s)
    /\ (snd (Remote.toggleTask_begin ready i s) = None ->
        Remote.remoteError (Remote.toggleTask ready i err s) = Remote.remoteError s)
    /\ (snd (Remote.removeTask_begin ready i s) = None ->
        Remote.remoteError (Remote.removeTask ready i err s) = Remote.remoteError s)
    /\ (snd (Remote.clearCompleted_begin ready s) = None ->
        Remote.remoteError (Remote.clearCompleted ready err s) = Remote.remoteError s)
    /\ (snd (Remote.saveEditing_begin ready i s) = None ->
        Remote.remoteError (Remote.saveEditing ready i err s) = Remote.remoteError s).
Proof.
  intros ready now i d err reply s.
  unfold Remote.addTask, Remote.toggleTask, Remote.removeTask, Remote.clearCompleted,
    Remote.saveEditing, Remote.await,
    Remote.addTask_begin, Remote.toggleTask_begin, Remote.removeTask_begin,
    Remote.clearCompleted_begin, Remote.saveEditing_begin.
  destruct (Remote.remoteUser ready s), (find_by_id i (Remote.tasks s)),
    (negb (truthy (trim (Remote.text s)))),
    (negb (truthy (trim (Remote.editingText s)))); simpl;
    repeat apply conj; intros H; try reflexivity; try discriminate H; now elim H.
Qed.

Lemma remoteError_after_witness :
  Remote.remoteError
    (Remote.toggleTask true (INum 1) None (Remote.setRemoteError (js "old") alice_AB)) = []
  /\ Remote.remoteError
       (Remote.toggleTask true (INum 1) None (Remote.setRemoteError (js "old") anonymous_AB))
     = js "old".
Proof.
  split.
  - apply (remoteError_after true 0 (INum 1) (Remote.mkRow (INum 1) [] None) None no_row
             (Remote.setRemoteError (js "old") alice_AB)).
    discriminate.
  - apply (remoteError_after true 0 (INum 1) (Remote.mkRow (INum 1) [] None) None no_row
             (Remote.setRemoteError (js "old") anonymous_AB)).
    reflexivity.
Defined.

(** ** The load after a login *)

Lemma prefix_ci_iff (p s : jsstring) :
  prefix_ci p s = true <-> exists mid post, s = mid ++ post /\ map lower mid = map lower p.
Proof.
  revert s. induction p as [|a p IH]; intros s; simpl.
  - split; [intros _; now exists [], s|reflexivity].
  - destruct s as [|b s].
    + split; [discriminate|]. intros (mid & post & E & M).
      destruct mid; [discriminate M|discriminate E].
    + rewrite andb_true_iff, N.eqb_eq, IH. split.
      * intros (L & mid & post & E & M). exists (b :: mid), post. simpl.
        split; [now rewrite E|now rewrite M, L].
      * intros (mid & post & E & M). destruct mid as [|c mid]; [discriminate M|].
        simpl in E, M. injection E as -> ->. injection M as L M.
        split; [now rewrite L|now exists mid, post].
Qed.

Lemma test_ci_iff (p s : jsstring) : test_ci p s = true <-> occurs_ci p s.
Proof.
  unfold occurs_ci. induction s as [|c s IH]; simpl; rewrite orb_true_iff, prefix_ci_iff.
  - split.
    + intros [(mid & post & E & M)|H]; [|discriminate H]. now exists [], mid, post.
    + intros (pre & mid & post & E & M). left.
      destruct pre; [now exists mid, post|discriminate E].
  - rewrite IH. split.
    + intros [(mid & post & E & M)|(pre & mid & post & E & M)].
      * now exists [], mid, post.
      * exists (c :: pre), mid, post. simpl. now rewrite E.
    + intros (pre & mid & post & E & M). destruct pre as [|c' pre].
      * left. now exists mid, post.
      * right. simpl in E. injection E as -> ->. now exists pre, mid, post.
Qed.

(** X14. The load asks a second time, ordered by [id] descending and
    without the [created_at] column, exactly when the first reply is an
    error whose message contains [created_at] in any letter case. *)
Theorem load_retry_iff :
  forall (uid : jsstring) (res : Remote.Response (list Remote.Row)),
    (Remote.load_retry uid res
     = Some (Remote.Select (js "id,title,done,user_id") uid (js "id") false)
     <-> exists e, Remote.error res = Some e
                   /\ occurs_ci (js "created_at") (Remote.message e))
    /\ (Remote.load_retry uid res = None
        <-> ~ exists e, Remote.error res = Some e
                        /\ occurs_ci (js "created_at") (Remote.message e)).
Proof.
  intros uid res. unfold Remote.load_retry.
  destruct (Remote.error res) as [e|].
  - destruct (test_ci (js "created_at") (Remote.message e)) eqn:T.
    + apply test_ci_iff in T. split; split; try discriminate; eauto.
      intros H. elim H. eauto.
    + assert (N : ~ occurs_ci (js "created_at") (Remote.message e)).
      { intros O. apply test_ci_iff in O. congruence. }
      split; split; try discriminate; auto.
      * intros (e' & E & O). injection E as <-. contradiction.
      * intros _ (e' & E & O). injection E as <-. contradiction.
  - split; split; try discriminate; auto.
    + intros (e & E & _). discriminate E.
    + intros _ (e & E & _). discriminate E.
Qed.

(** Logged in, and with the filter as it was, the effects change nothing. *)
Lemma effects_logged_in (ready : bool) (prev cur : Remote.State) (u : Remote.User) :
  Remote.session cur = Some u ->
  Remote.userId prev = Remote.userId cur ->
  Remote.filter prev = Remote.filter cur ->
  Remote.effects ready prev cur = (cur, None).
Proof.
  intros S U F. unfold Remote.effects, Remote.persistTasks, Remote.user.
  rewrite S.
  destruct (Remote.userId_eq_dec _ _) as [_|N]; [|contradiction].
  destruct (jsstring_eq_dec _ _) as [_|N]; [|contradiction].
  destruct (tasks_eq_dec _ _); [destruct (Remote.User_eq_dec _ _)|]; reflexivity.
Qed.

Lemma settle_logged_in (ready : bool) (prev cur : Remote.State) (u : Remote.User) :
  Remote.session cur = Some u ->
  Remote.userId prev = Remote.userId cur ->
  Remote.filter prev = Remote.filter cur ->
  Remote.settle ready prev cur = cur.
Proof.
  intros S U F. unfold Remote.settle, Remote.commit.
  rewrite (effects_logged_in ready prev cur u S U F). simpl.
  now rewrite (effects_logged_in ready cur cur u S eq_refl eq_refl).
Qed.

(** The state a login leaves while the load is in flight. *)
Lemma login_commit (s : Remote.State) (u : Remote.User) :
  Remote.session s = None -> truthy (Remote.user_id u) = true ->
  Remote.commit true s (Remote.setSession (Some u) s)
  = (Remote.mkState (Remote.text s) [] true (Some u) (Remote.tasks s) (Remote.filter s)
                    (Remote.editingId s) (Remote.editingText s) (Some (Remote.user_id u))
                    (Remote.localStorage s),
     Some (Remote.user_id u)).
Proof.
  intros S T. unfold Remote.commit.
  assert (E : Remote.effects true s (Remote.setSession (Some u) s)
              = (Remote.mkState (Remote.text s) [] true (Some u) (Remote.tasks s)
                   (Remote.filter s) (Remote.editingId s) (Remote.editingText s)
                   (Some (Remote.user_id u)) (Remote.localStorage s),
                 Some (Remote.user_id u))).
  { unfold Remote.effects.
    destruct (Remote.userId_eq_dec _ _) as [E|_].
    - unfold Remote.userId, Remote.user in E. simpl in E. rewrite S in E. discriminate E.
    - destruct (tasks_eq_dec _ _) as [_|N]; [|now elim N].
      destruct (jsstring_eq_dec _ _) as [_|N]; [|now elim N].
      destruct (Remote.User_eq_dec _ _) as [X|_].
      + unfold Remote.user in X. simpl in X. congruence.
      + unfold Remote.reconcile, Remote.persistTasks. simpl.
        rewrite T, andb_false_r. reflexivity. }
  rewrite E. simpl. erewrite effects_logged_in; reflexivity.
Qed.

(** X15. Login with a load that succeeds (at once, or on the second query
    after an error that mentions [created_at]): the list becomes the rows
    of the reply, in the reply's order, each with its key and title and
    with [null] read as not completed; the editor is closed, the loading
    notice and the status area are cleared; the input, the filter and the
    task list kept in local storage are untouched. *)
Theorem login_load_succeeds :
  forall (s : Remote.State) (u : Remote.User) (res1 res2 : Remote.Response (list Remote.Row))
         (res : Remote.Response (list Remote.Row)),
    Remote.session s = None ->
    truthy (Remote.user_id u) = true ->
    res = match Remote.load_retry (Remote.user_id u) res1 with
          | Some _ => res2
          | None => res1
          end ->
    Remote.error res = None ->
    Remote.step true (Remote.SessionChange (Some u) res1 res2) s
    = Remote.mkState (Remote.text s) [] false (Some u)
                     (map Remote.task_of_row (rows_of res)) (Remote.filter s)
                     None [] (Some (Remote.user_id u)) (Remote.localStorage s).
Proof.
  intros s u res1 res2 res S T R E. unfold Remote.step.
  rewrite (login_commit s u S T). cbn [fst snd].
  unfold Remote.load_resume.
  assert (F : forall s1, Remote.load_finish res s1
                = Remote.setRemoteLoading false
                    (Remote.setEditingText []
                       (Remote.setEditingId None
                          (Remote.setTasks (fun _ => map Remote.task_of_row (rows_of res)) s1)))).
  { intros s1. unfold Remote.load_finish. now rewrite E. }
  destruct (Remote.load_retry (Remote.user_id u) res1); subst res; rewrite F;
    now rewrite (settle_logged_in true _ _ u).
Qed.

Lemma login_load_succeeds_witness :
  Remote.tasks (Remote.step true (Remote.SessionChange (Some alice) no_created_at rows_AB)
                            before_login)
  = [taskA; taskB].
Proof.
  rewrite (login_load_succeeds before_login alice no_created_at rows_AB rows_AB);
    reflexivity.
Defined.

(** X16. Login with a load that fails: the tasks on screen stay (the local
    ones, now shown to a logged-in user), the editor is left as it is, the
    loading notice is cleared, and the status area shows the failure's
    message, or a fixed text when the message is empty, so never nothing. *)
Theorem login_load_fails :
  forall (s : Remote.State) (u : Remote.User) (res1 res2 : Remote.Response (list Remote.Row))
         (res : Remote.Response (list Remote.Row)) (e : Remote.Error),
    Remote.session s = None ->
    truthy (Remote.user_id u) = true ->
    res = match Remote.load_retry (Remote.user_id u) res1 with
          | Some _ => res2
          | None => res1
          end ->
    Remote.error res = Some e ->
    Remote.step true (Remote.SessionChange (Some u) res1 res2) s
    = Remote.mkState (Remote.text s)
                     (if truthy (Remote.message e) then Remote.message e
                      else Remote.load_failed)
                     false (Some u) (Remote.tasks s) (Remote.filter s)
                     (Remote.editingId s) (Remote.editingText s)
                     (Some (Remote.user_id u)) (Remote.localStorage s)
    /\ Remote.remoteError (Remote.step true (Remote.SessionChange (Some u) res1 res2) s) <> [].
Proof.
  intros s u res1 res2 res e S T R E.
  assert (H : Remote.step true (Remote.SessionChange (Some u) res1 res2) s
              = Remote.mkState (Remote.text s)
                  (if truthy (Remote.message e) then Remote.message e
                   else Remote.load_failed)
                  false (Some u) (Remote.tasks s) (Remote.filter s)
                  (Remote.editingId s) (Remote.editingText s)
                  (Some (Remote.user_id u)) (Remote.localStorage s)).
  { unfold Remote.step. rewrite (login_commit s u S T). cbn [fst snd].
    unfold Remote.load_resume.
    assert (F : forall s1, Remote.load_finish res s1
                  = Remote.setRemoteLoading false
                      (Remote.setRemoteError
                         (if truthy (Remote.message e) then Remote.message e
                          else Remote.load_failed) s1)).
    { intros s1. unfold Remote.load_finish. now rewrite E. }
    destruct (Remote.load_retry (Remote.user_id u) res1); subst res; rewrite F;
      now rewrite (settle_logged_in true _ _ u). }
  split; [exact H|]. rewrite H. simpl.
  destruct (Remote.message e); simpl; discriminate.
Qed.

Lemma login_load_fails_witness :
  Remote.tasks (Remote.step true
                  (Remote.SessionChange (Some alice)
                     (Remote.mkResponse None (Some silent_failure)) no_rows)
                  before_login)
  = defaultTasks
  /\ Remote.remoteError (Remote.step true
                           (Remote.SessionChange (Some alice)
                              (Remote.mkResponse None (Some silent_failure)) no_rows)
                           before_login)
     = Remote.load_failed.
Proof.
  destruct (login_load_fails before_login alice
              (Remote.mkResponse None (Some silent_failure)) no_rows
              (Remote.mkResponse None (Some silent_failure)) silent_failure
              eq_refl eq_refl eq_refl eq_refl) as [H _].
  rewrite H. split; reflexivity.
Defined.

(** ** The sign-in panel *)

(** X17. Sending the magic link. Without a configured client, or with a
    blank e-mail, nothing happens: no request, no message touched.
    Otherwise both messages are cleared and one request is made, for the
    e-mail without the white space around it and with the redirect address
    [origin/todo-vibecode/]; then a failure puts its message in the error
    line and leaves the notice empty, and a success puts the fixed notice
    and leaves the error line empty. The e-mail typed is kept. *)
Theorem sendMagicLink_outcome :
  forall (ready : bool) (origin : jsstring) (e : Remote.Error) (a : Auth.State),
    (ready = false \/ blank (Auth.email a) = true ->
     Auth.sendMagicLink_begin ready origin a = (a, None)
     /\ Auth.sendMagicLink ready origin (Some e) a = a
     /\ Auth.sendMagicLink ready origin None a = a)
    /\ (ready = true -> blank (Auth.email a) = false ->
        Auth.sendMagicLink_begin ready origin a
        = (Auth.mkState (Auth.email a) [] [],
           Some (Auth.SignInWithOtp (trim (Auth.email a)) (origin ++ js "/todo-vibecode/")))
        /\ Auth.sendMagicLink ready origin (Some e) a
           = Auth.mkState (Auth.email a) [] (Remote.message e)
        /\ Auth.sendMagicLink ready origin None a
           = Auth.mkState (Auth.email a) Auth.link_sent []).
Proof.
  intros ready origin e a.
  unfold Auth.sendMagicLink, Auth.sendMagicLink_begin. split.
  - intros [->|B]; simpl; [auto|].
    apply trim_nil_iff in B. rewrite B. destruct ready; simpl; auto.
  - intros -> B. simpl.
    destruct (truthy (trim (Auth.email a))) eqn:T; simpl; [auto|].
    apply truthy_false_iff, trim_nil_iff in T. congruence.
Qed.

Lemma sendMagicLink_outcome_witness :
  Auth.sendMagicLink_begin true (js "https://x.y") mail_typing
  = (Auth.mkState (js " a@b.c ") [] [],
     Some (Auth.SignInWithOtp (js "a@b.c") (js "https://x.y/todo-vibecode/")))
  /\ Auth.sendMagicLink false (js "https://x.y") None mail_typing = mail_typing.
Proof.
  destruct (sendMagicLink_outcome true (js "https://x.y") offline mail_typing) as [_ H].
  destruct (sendMagicLink_outcome false (js "https://x.y") offline mail_typing) as [H' _].
  split.
  - exact (proj1 (H eq_refl eq_refl)).
  - exact (proj2 (proj2 (H' (or_introl eq_refl)))).
Defined.

(** Signing out from the panel. Without a configured client nothing
    happens; otherwise both messages are cleared and the sign-out call is
    made, and if it fails its message goes to the error line. The panel's
    handler itself changes nothing else: the e-mail typed is kept. *)
Theorem signOut_outcome :
  forall (ready : bool) (e : Remote.Error) (a : Auth.State),
    Auth.signOut_begin ready a
    = (if ready then (Auth.mkState (Auth.email a) [] [], Some Auth.SignOut) else (a, None))
    /\ Auth.signOut ready None a
       = (if ready then Auth.mkState (Auth.email a) [] [] else a)
    /\ Auth.signOut ready (Some e) a
       = (if ready then Auth.mkState (Auth.email a) [] (Remote.message e) else a).
Proof.
  intros ready e a. unfold Auth.signOut, Auth.signOut_begin.
  destruct ready; simpl; auto.
Qed.

(** ** Local storage *)

Lemma local_commit_mirrors (prev cur : Local.State) :
  mirrors (Local.localStorage prev) (Local.tasks prev) (Local.filter prev) ->
  Local.localStorage cur = Local.localStorage prev ->
  mirrors (Local.localStorage (Local.commit prev cur))
          (Local.tasks (Local.commit prev cur)) (Local.filter (Local.commit prev cur)).
Proof.
  intros (A & T & F) L. unfold Local.commit, Local.persistTasks, Local.persistFilter,
    setItem_tasks, setItem_filter.
  destruct (tasks_eq_dec _ _) as [Et|_], (jsstring_eq_dec _ _) as [Ef|_]; simpl;
    rewrite ?L, ?A; simpl; unfold mirrors; simpl; rewrite ?L; repeat split;
    congruence.
Qed.

Lemma local_mount_mirrors (ls : LocalStorage) (f0 : jsstring) :
  available ls = true ->
  mirrors (Local.localStorage (Local.mount ls f0))
          (Local.tasks (Local.mount ls f0)) (Local.filter (Local.mount ls f0)).
Proof.
  intros A. unfold Local.mount, Local.persistTasks, Local.persistFilter,
    setItem_tasks, setItem_filter. simpl. rewrite A. simpl. now repeat split.
Qed.

Lemma local_run_mirrors (es : list Local.Event) (s : Local.State) :
  mirrors (Local.localStorage s) (Local.tasks s) (Local.filter s) ->
  mirrors (Local.localStorage (Local.run es s))
          (Local.tasks (Local.run es s)) (Local.filter (Local.run es s)).
Proof.
  revert s. induction es as [|e es IH]; simpl; intros s M; [exact M|].
  apply IH. apply local_commit_mirrors; [exact M|].
  destruct e; simpl; try reflexivity.
  - unfold Local.addTask. destruct (negb _); reflexivity.
  - unfold Local.saveEditing. destruct (negb _); reflexivity.
Qed.

(** X18. The local component keeps local storage in step with the screen:
    over a working store, after the first render and after every event the
    stored task list is the list shown and the stored filter is the filter
    chosen, so a reload starts from the list shown. *)
Theorem local_reload_restores :
  forall (ls : LocalStorage) (f0 f1 : jsstring) (es : list Local.Event),
    available ls = true ->
    mirrors (Local.localStorage (Local.run es (Local.mount ls f0)))
            (Local.tasks (Local.run es (Local.mount ls f0)))
            (Local.filter (Local.run es (Local.mount ls f0)))
    /\ Local.tasks (Local.mount (Local.localStorage (Local.run es (Local.mount ls f0))) f1)
       = Local.tasks (Local.run es (Local.mount ls f0)).
Proof.
  intros ls f0 f1 es A.
  pose proof (local_run_mirrors es _ (local_mount_mirrors ls f0 A)) as M.
  split; [exact M|]. destruct M as (Av & T & _).
  set (s := Local.run es (Local.mount ls f0)) in *.
  assert (I : initialTasks (Local.localStorage s) = Local.tasks s).
  { unfold initialTasks, getItem_tasks. now rewrite Av, T. }
  exact I.
Qed.

Lemma local_reload_restores_witness :
  Local.tasks (Local.mount (Local.localStorage
                              (Local.run local_session (Local.mount empty_storage FILTERS_all)))
                           FILTERS_all)
  = Local.tasks (Local.run local_session (Local.mount empty_storage FILTERS_all)).
Proof.
  exact (proj2 (local_reload_restores empty_storage FILTERS_all FILTERS_all local_session
                  eq_refl)).
Defined.

Lemma persistTasks_mirror (cur : Remote.State) :
  available (Remote.localStorage cur) = true ->
  available (Remote.localStorage (Remote.persistTasks cur)) = true
  /\ (Remote.session (Remote.persistTasks cur) = None ->
      item_tasks (Remote.localStorage (Remote.persistTasks cur))
      = Some (Remote.tasks (Remote.persistTasks cur))).
Proof.
  intros A. unfold Remote.persistTasks, Remote.user, setItem_tasks.
  destruct (Remote.session cur) eqn:S; simpl.
  - split; [exact A|]. intros N. congruence.
  - rewrite A. simpl. split; reflexivity.
Qed.

(** In the remote component: what the effects need to know of the render
    they run after, and what they establish. *)
Lemma effects_mirror (ready : bool) (prev cur : Remote.State) :
  available (Remote.localStorage cur) = true ->
  (Remote.tasks prev = Remote.tasks cur -> Remote.session prev = Remote.session cur ->
   Remote.session cur = None ->
   item_tasks (Remote.localStorage cur) = Some (Remote.tasks cur)) ->
  let s' := fst (Remote.effects ready prev cur) in
  available (Remote.localStorage s') = true
  /\ (Remote.session s' = None -> item_tasks (Remote.localStorage s') = Some (Remote.tasks s')).
Proof.
  intros A H. unfold Remote.effects.
  assert (P : let s1 := if tasks_eq_dec (Remote.tasks prev) (Remote.tasks cur)
                        then if Remote.User_eq_dec (Remote.user prev) (Remote.user cur)
                             then cur else Remote.persistTasks cur
                        else Remote.persistTasks cur in
              available (Remote.localStorage s1) = true
              /\ (Remote.session s1 = None ->
                  item_tasks (Remote.localStorage s1) = Some (Remote.tasks s1))).
  { destruct (tasks_eq_dec _ _) as [Et|_]; [destruct (Remote.User_eq_dec _ _) as [Eu|_]|];
      simpl; auto using persistTasks_mirror. }
  simpl in P. destruct P as [A1 M1].
  set (s1 := if tasks_eq_dec (Remote.tasks prev) (Remote.tasks cur) then _ else _) in *.
  assert (Q : let s2 := if jsstring_eq_dec (Remote.filter prev) (Remote.filter cur)
                        then s1 else Remote.persistFilter s1 in
              available (Remote.localStorage s2) = true
              /\ (Remote.session s2 = None ->
                  item_tasks (Remote.localStorage s2) = Some (Remote.tasks s2))).
  { unfold Remote.persistFilter, setItem_filter.
    destruct (jsstring_eq_dec _ _); simpl; rewrite ?A1; simpl; auto. }
  simpl in Q. destruct Q as [A2 M2].
  set (s2 := if jsstring_eq_dec (Remote.filter prev) (Remote.filter cur) then _ else _) in *.
  destruct (Remote.userId_eq_dec _ _); simpl; [auto|].
  unfold Remote.reconcile, getItem_tasks.
  destruct (negb ready); simpl; [auto|].
  destruct (_ && _); simpl.
  - rewrite A2. destruct (item_tasks (Remote.localStorage s2)) eqn:I; simpl;
      (split; [exact A2|]); [intros _; exact I|intros N; rewrite I; exact (M2 N)].
  - destruct (Remote.userId s2) as [uid|]; [destruct (truthy uid)|]; simpl; auto.
Qed.

Lemma settle_mirror (ready : bool) (prev cur : Remote.State) :
  available (Remote.localStorage cur) = true ->
  (Remote.tasks prev = Remote.tasks cur -> Remote.session prev = Remote.session cur ->
   Remote.session cur = None ->
   item_tasks (Remote.localStorage cur) = Some (Remote.tasks cur)) ->
  let s' := Remote.settle ready prev cur in
  available (Remote.localStorage s') = true
  /\ (Remote.session s' = None -> item_tasks (Remote.localStorage s') = Some (Remote.tasks s')).
Proof.
  intros A H. unfold Remote.settle, Remote.commit. simpl.
  destruct (effects_mirror ready prev cur A H) as [A1 M1].
  apply effects_mirror; auto.
Qed.

(** A handler's part that leaves local storage and the session alone. *)
Lemma settle_mirror_handler (ready : bool) (s x : Remote.State) :
  available (Remote.localStorage s) = true ->
  (Remote.session s = None -> item_tasks (Remote.localStorage s) = Some (Remote.tasks s)) ->
  Remote.localStorage x = Remote.localStorage s ->
  Remote.session x = Remote.session s ->
  let s' := Remote.settle ready s x in
  available (Remote.localStorage s') = true
  /\ (Remote.session s' = None -> item_tasks (Remote.localStorage s') = Some (Remote.tasks s')).
Proof.
  intros A M L S. apply settle_mirror; rewrite ?L; auto.
  intros T _ N. rewrite <- T. apply M. congruence.
Qed.

Lemma begin_frame (ready : bool) (now : Z) (i : Ident) (s : Remote.State) :
  (Remote.localStorage (fst (Remote.addTask_begin ready now s)) = Remote.localStorage s
   /\ Remote.session (fst (Remote.addTask_begin ready now s)) = Remote.session s)
  /\ (Remote.localStorage (fst (Remote.toggleTask_begin ready i s)) = Remote.localStorage s
      /\ Remote.session (fst (Remote.toggleTask_begin ready i s)) = Remote.session s)
  /\ (Remote.localStorage (fst (Remote.removeTask_begin ready i s)) = Remote.localStorage s
      /\ Remote.session (fst (Remote.removeTask_begin ready i s)) = Remote.session s)
  /\ (Remote.localStorage (fst (Remote.clearCompleted_begin ready s)) = Remote.localStorage s
      /\ Remote.session (fst (Remote.clearCompleted_begin ready s)) = Remote.session s)
  /\ (Remote.localStorage (fst (Remote.saveEditing_begin ready i s)) = Remote.localStorage s
      /\ Remote.session (fst (Remote.saveEditing_begin ready i s)) = Remote.session s).
Proof.
  unfold Remote.addTask_begin, Remote.toggleTask_begin, Remote.removeTask_begin,
    Remote.clearCompleted_begin, Remote.saveEditing_begin.
  destruct (Remote.remoteUser ready s), (find_by_id i (Remote.tasks s)),
    (negb (truthy (trim (Remote.text s)))),
    (negb (truthy (trim (Remote.editingText s)))); simpl; repeat split.
Qed.

Lemma resume_frame (p : Remote.Pending) (err : option Remote.Error)
      (reply : Remote.Response Remote.Row) (uid : jsstring)
      (res1 res2 : Remote.Response (list Remote.Row)) (s : Remote.State) :
  (Remote.localStorage (Remote.mutation_resume p err s) = Remote.localStorage s
   /\ Remote.session (Remote.mutation_resume p err s) = Remote.session s)
  /\ (Remote.localStorage (Remote.addTask_resume reply s) = Remote.localStorage s
      /\ Remote.session (Remote.addTask_resume reply s) = Remote.session s)
  /\ (Remote.localStorage (Remote.load_resume uid res1 res2 s) = Remote.localStorage s
      /\ Remote.session (Remote.load_resume uid res1 res2 s) = Remote.session s).
Proof.
  unfold Remote.mutation_resume, Remote.addTask_resume, Remote.load_resume, Remote.load_finish.
  destruct err, (Remote.error reply), (Remote.data reply), (Remote.load_retry uid res1),
    (Remote.error res1), (Remote.error res2); simpl; repeat split.
Qed.

Lemma run_async_mirror {K : Type} (ready : bool) (s : Remote.State)
      (r : Remote.State * option K) (k : K -> Remote.State -> Remote.State) :
  available (Remote.localStorage s) = true ->
  (Remote.session s = None -> item_tasks (Remote.localStorage s) = Some (Remote.tasks s)) ->
  Remote.localStorage (fst r) = Remote.localStorage s ->
  Remote.session (fst r) = Remote.session s ->
  (forall p x, Remote.localStorage (k p x) = Remote.localStorage x
               /\ Remote.session (k p x) = Remote.session x) ->
  let s' := Remote.run_async ready s r k in
  available (Remote.localStorage s') = true
  /\ (Remote.session s' = None -> item_tasks (Remote.localStorage s') = Some (Remote.tasks s')).
Proof.
  intros A M L S Hk. unfold Remote.run_async.
  destruct (settle_mirror_handler ready s (fst r) A M L S) as [A1 M1].
  destruct (snd r) as [p|]; [|now split].
  apply settle_mirror_handler; auto; apply Hk.
Qed.

Lemma step_mirror (ready : bool) (e : Remote.Event) (s : Remote.State) :
  available (Remote.localStorage s) = true ->
  (Remote.session s = None -> item_tasks (Remote.localStorage s) = Some (Remote.tasks s)) ->
  let s' := Remote.step ready e s in
  available (Remote.localStorage s') = true
  /\ (Remote.session s' = None -> item_tasks (Remote.localStorage s') = Some (Remote.tasks s')).
Proof.
  intros A M.
  destruct (begin_frame ready 0 (INum 0) s) as (_ & _ & _ & (B4 & B4') & _).
  destruct e; unfold Remote.step;
    try (apply settle_mirror_handler; auto; reflexivity).
  - destruct (begin_frame ready now (INum 0) s) as ((B & B') & _).
    apply run_async_mirror; auto. intros p x. apply (resume_frame (Remote.mkPending
      (Remote.DeleteDone []) []) None reply [] no_rows no_rows x).
  - destruct (begin_frame ready 0 i s) as (_ & (B & B') & _).
    apply run_async_mirror; auto. intros p x.
    apply (resume_frame p error no_row [] no_rows no_rows x).
  - destruct (begin_frame ready 0 i s) as (_ & _ & (B & B') & _).
    apply run_async_mirror; auto. intros p x.
    apply (resume_frame p error no_row [] no_rows no_rows x).
  - apply run_async_mirror; auto. intros p x.
    apply (resume_frame p error no_row [] no_rows no_rows x).
  - destruct (begin_frame ready 0 i s) as (_ & _ & _ & _ & (B & B')).
    apply run_async_mirror; auto. intros p x.
    apply (resume_frame p error no_row [] no_rows no_rows x).
  - unfold Remote.commit. cbn [fst snd].
    assert (C : let c := fst (Remote.effects ready (Remote.setSession next s)
                                (fst (Remote.effects ready s (Remote.setSession next s)))) in
                available (Remote.localStorage c) = true
                /\ (Remote.session c = None ->
                    item_tasks (Remote.localStorage c) = Some (Remote.tasks c))).
    { apply (settle_mirror ready s (Remote.setSession next s)); [exact A|].
      simpl. intros _ <- N. now apply M. }
    simpl in C. destruct C as [A1 M1].
    destruct (snd (Remote.effects ready s (Remote.setSession next s))) as [uid|];
      [|now split].
    apply settle_mirror_handler; auto;
      apply (resume_frame (Remote.mkPending (Remote.DeleteDone []) []) None no_row
               uid res1 res2).
Qed.

(** X19. The remote component keeps local storage in step with the screen
    whenever nobody is logged in: over a working store, in every state of
    every run (logins, loads and logouts included) in which nobody is
    logged in, the stored task list is the list shown, so a reload starts
    from it. *)
Theorem remote_anonymous_mirrors :
  forall (ready : bool) (ls : LocalStorage) (f0 f1 : jsstring) (es : list Remote.Event),
    available ls = true ->
    Remote.session (Remote.run ready es (Remote.mount ready ls f0)) = None ->
    item_tasks (Remote.localStorage (Remote.run ready es (Remote.mount ready ls f0)))
    = Some (Remote.tasks (Remote.run ready es (Remote.mount ready ls f0)))
    /\ Remote.tasks
         (Remote.mount ready
            (Remote.localStorage (Remote.run ready es (Remote.mount ready ls f0))) f1)
       = Remote.tasks (Remote.run ready es (Remote.mount ready ls f0)).
Proof.
  intros ready ls f0 f1 es A.
  assert (I : let s := Remote.run ready es (Remote.mount ready ls f0) in
              available (Remote.localStorage s) = true
              /\ (Remote.session s = None ->
                  item_tasks (Remote.localStorage s) = Some (Remote.tasks s))).
  { assert (I0 : let s := Remote.mount ready ls f0 in
                 available (Remote.localStorage s) = true
                 /\ (Remote.session s = None ->
                     item_tasks (Remote.localStorage s) = Some (Remote.tasks s))).
    { unfold Remote.mount, Remote.reconcile, Remote.persistTasks, Remote.persistFilter,
        setItem_tasks, setItem_filter. simpl. rewrite A. destruct ready; simpl; auto. }
    revert I0. generalize (Remote.mount ready ls f0).
    induction es as [|e es IH]; simpl; intros s I0; [exact I0|].
    apply IH. now apply step_mirror. }
  simpl in I. destruct I as [Av M]. intros S. specialize (M S). split; [exact M|].
  set (s := Remote.run ready es (Remote.mount ready ls f0)) in *.
  assert (T : initialTasks (Remote.localStorage s) = Remote.tasks s).
  { unfold initialTasks, getItem_tasks. now rewrite Av, M. }
  unfold Remote.mount, Remote.reconcile. simpl.
  destruct ready; simpl; exact T.
Qed.

Lemma remote_anonymous_mirrors_witness :
  item_tasks (Remote.localStorage
                (Remote.run true remote_session (Remote.mount true empty_storage FILTERS_all)))
  = Some (Remote.tasks
            (Remote.run true remote_session (Remote.mount true empty_storage FILTERS_all))).
Proof.
  exact (proj1 (remote_anonymous_mirrors true empty_storage FILTERS_all FILTERS_all
                  remote_session eq_refl eq_refl)).
Defined.

(** While somebody is logged in, no effect writes the stored task list. *)
Lemma effects_bypass (ready : bool) (prev cur : Remote.State) (u : Remote.User) :
  Remote.session cur = Some u ->
  Remote.userId prev = Remote.userId cur ->
  item_tasks (Remote.localStorage (fst (Remote.effects ready prev cur)))
  = item_tasks (Remote.localStorage cur)
  /\ Remote.session (fst (Remote.effects ready prev cur)) = Some u.
Proof.
  intros S U. unfold Remote.effects, Remote.persistTasks, Remote.persistFilter,
    Remote.user, setItem_filter.
  rewrite S.
  destruct (Remote.userId_eq_dec _ _) as [_|N]; [|contradiction].
  destruct (tasks_eq_dec _ _); [destruct (Remote.User_eq_dec _ _)|];
    destruct (jsstring_eq_dec _ _); simpl;
    try destruct (available (Remote.localStorage cur)); simpl; auto.
Qed.

Lemma settle_bypass (ready : bool) (prev cur : Remote.State) (u : Remote.User) :
  Remote.session cur = Some u ->
  Remote.userId prev = Remote.userId cur ->
  item_tasks (Remote.localStorage (Remote.settle ready prev cur))
  = item_tasks (Remote.localStorage cur)
  /\ Remote.session (Remote.settle ready prev cur) = Some u.
Proof.
  intros S U. unfold Remote.settle, Remote.commit. simpl.
  destruct (effects_bypass ready prev cur u S U) as [I1 S1].
  assert (U1 : Remote.userId cur = Remote.userId (fst (Remote.effects ready prev cur))).
  { unfold Remote.userId, Remote.user. now rewrite S, S1. }
  destruct (effects_bypass ready cur _ u S1 U1) as [I2 S2].
  split; congruence.
Qed.

Lemma run_async_bypass {K : Type} (ready : bool) (s : Remote.State) (u : Remote.User)
      (r : Remote.State * option K) (k : K -> Remote.State -> Remote.State) :
  Remote.session s = Some u ->
  Remote.localStorage (fst r) = Remote.localStorage s ->
  Remote.session (fst r) = Remote.session s ->
  (forall p x, Remote.localStorage (k p x) = Remote.localStorage x
               /\ Remote.session (k p x) = Remote.session x) ->
  item_tasks (Remote.localStorage (Remote.run_async ready s r k))
  = item_tasks (Remote.localStorage s)
  /\ Remote.session (Remote.run_async ready s r k) = Some u.
Proof.
  intros S L E Hk. unfold Remote.run_async.
  assert (S0 : Remote.session (fst r) = Some u) by congruence.
  assert (U0 : Remote.userId s = Remote.userId (fst r)).
  { unfold Remote.userId, Remote.user. now rewrite E. }
  destruct (settle_bypass ready s (fst r) u S0 U0) as [I1 S1].
  destruct (snd r) as [p|]; [|split; congruence].
  set (s1 := Remote.settle ready s (fst r)) in *.
  destruct (Hk p s1) as [L2 E2].
  assert (S2 : Remote.session (k p s1) = Some u) by congruence.
  assert (U2 : Remote.userId s1 = Remote.userId (k p s1)).
  { unfold Remote.userId, Remote.user. now rewrite E2. }
  destruct (settle_bypass ready s1 (k p s1) u S2 U2) as [I3 S3].
  split; congruence.
Qed.

(** X20. Local storage is bypassed while somebody is logged in: whatever
    the user does to the tasks (add, toggle, edit, delete, clear, with any
    reply of the backend), the task list kept in local storage stays what
    it was, and the user stays logged in. *)
Theorem logged_in_bypasses_storage :
  forall (ready : bool) (e : Remote.Event) (s : Remote.State) (u : Remote.User),
    Remote.session s = Some u ->
    session_event e = false ->
    item_tasks (Remote.localStorage (Remote.step ready e s))
    = item_tasks (Remote.localStorage s)
    /\ Remote.session (Remote.step ready e s) = Some u.
Proof.
  intros ready e s u S E.
  destruct e; try discriminate E; unfold Remote.step;
    try match goal with
        | |- context [Remote.settle ready s ?x] =>
            exact (settle_bypass ready s x u S eq_refl)
        end.
  - destruct (begin_frame ready now (INum 0) s) as ((B & B') & _).
    apply run_async_bypass; auto. intros p x.
    apply (resume_frame (Remote.mkPending (Remote.DeleteDone []) []) None reply []
             no_rows no_rows x).
  - destruct (begin_frame ready 0 i s) as (_ & (B & B') & _).
    apply run_async_bypass; auto. intros p x.
    apply (resume_frame p error no_row [] no_rows no_rows x).
  - destruct (begin_frame ready 0 i s) as (_ & _ & (B & B') & _).
    apply run_async_bypass; auto. intros p x.
    apply (resume_frame p error no_row [] no_rows no_rows x).
  - destruct (begin_frame ready 0 (INum 0) s) as (_ & _ & _ & (B & B') & _).
    apply run_async_bypass; auto. intros p x.
    apply (resume_frame p error no_row [] no_rows no_rows x).
  - destruct (begin_frame ready 0 i s) as (_ & _ & _ & _ & (B & B')).
    apply run_async_bypass; auto. intros p x.
    apply (resume_frame p error no_row [] no_rows no_rows x).
Qed.

Lemma logged_in_bypasses_storage_witness :
  item_tasks (Remote.localStorage (Remote.step true (Remote.ClearCompleted None) alice_AB))
  = Some defaultTasks.
Proof.
  exact (proj1 (logged_in_bypasses_storage true (Remote.ClearCompleted None) alice_AB alice
                  eq_refl eq_refl)).
Defined.

(** ** Typing, the editor and the filter *)

(** X21. Typing in the input or in the editor, opening and cancelling the
    editor, and choosing a filter never change the task list, in either
    component, however many of these events follow one another. *)
Theorem passive_events_keep_tasks :
  forall (ready : bool) (els : list Local.Event) (es : list Remote.Event)
         (sl : Local.State) (s : Remote.State),
    forallb passive_local els = true ->
    forallb passive_remote es = true ->
    Local.tasks (Local.run els sl) = Local.tasks sl
    /\ Remote.tasks (Remote.run ready es s) = Remote.tasks s.
Proof.
  intros ready els es sl s Hl Hr. split.
  - revert sl. induction els as [|e els IH]; simpl in *; intros sl; [reflexivity|].
    apply andb_true_iff in Hl as [He Hl]. rewrite (IH Hl), local_step_tasks.
    destruct e; try discriminate He; reflexivity.
  - revert s. induction es as [|e es IH]; simpl in *; intros s; [reflexivity|].
    apply andb_true_iff in Hr as [He Hr]. rewrite (IH Hr).
    destruct e; try discriminate He; unfold Remote.step;
      match goal with
      | |- context [Remote.settle ready s ?x] =>
          exact (proj1 (settle_same_user ready s x eq_refl))
      end.
Qed.

Lemma passive_events_keep_tasks_witness :
  Remote.tasks (Remote.run true
                  [Remote.StartEditing taskA; Remote.TypeEditingText (js "x");
                   Remote.CancelEditing; Remote.SetFilter FILTERS_done]
                  alice_AB)
  = [taskA; taskB].
Proof.
  exact (proj2 (passive_events_keep_tasks true [Local.TypeText (js "x")]
                  [Remote.StartEditing taskA; Remote.TypeEditingText (js "x");
                   Remote.CancelEditing; Remote.SetFilter FILTERS_done]
                  local_AB alice_AB eq_refl eq_refl)).
Defined.

(** ** The two components, nobody logged in *)

Lemma settle_anonymous (ready : bool) (prev cur : Remote.State) :
  Remote.session prev = None -> Remote.session cur = None ->
  forget (Remote.settle ready prev cur) = Local.commit (forget prev) (forget cur)
  /\ Remote.session (Remote.settle ready prev cur) = None.
Proof.
  intros Sp Sc.
  assert (E1 : Remote.effects ready prev cur
               = (Remote.mkState (Remote.text cur) (Remote.remoteError cur)
                    (Remote.remoteLoading cur) None (Remote.tasks cur) (Remote.filter cur)
                    (Remote.editingId cur) (Remote.editingText cur)
                    (Remote.prevUserIdRef cur)
                    (Local.localStorage (Local.commit (forget prev) (forget cur))),
                  None)).
  { unfold Remote.effects, Local.commit, Remote.persistTasks, Remote.persistFilter,
      Local.persistTasks, Local.persistFilter, Remote.userId, Remote.user.
    rewrite Sp, Sc. simpl.
    destruct (Remote.userId_eq_dec None None) as [_|N]; [|now elim N].
    destruct (Remote.User_eq_dec None None) as [_|N]; [|now elim N].
    destruct cur; simpl in *; subst.
    destruct (tasks_eq_dec _ _), (jsstring_eq_dec _ _); reflexivity. }
  unfold Remote.settle, Remote.commit. rewrite E1. cbn [fst].
  set (c := Remote.mkState _ _ _ _ _ _ _ _ _ _).
  assert (E2 : Remote.effects ready cur c = (c, None)).
  { unfold Remote.effects, Remote.userId, Remote.user. subst c. simpl. rewrite Sc.
    destruct (Remote.userId_eq_dec _ _) as [_|N]; [|now elim N].
    destruct (Remote.User_eq_dec _ _) as [_|N]; [|now elim N].
    destruct (tasks_eq_dec _ _) as [_|N]; [|now elim N].
    destruct (jsstring_eq_dec _ _) as [_|N]; [|now elim N].
    reflexivity. }
  rewrite E2. subst c. split; [|reflexivity].
  unfold forget, Local.commit, Local.persistTasks, Local.persistFilter. simpl.
  destruct (tasks_eq_dec _ _), (jsstring_eq_dec _ _); reflexivity.
Qed.

Lemma toggle_maps_agree (i : Ident) (l : list Task) :
  agree_on_done i l ->
  match find_by_id i l with
  | Some current =>
      map (fun t => if strict_eq (id t) i then with_done (negb (done current)) t else t) l
  | None => l
  end
  = map (fun t => if strict_eq (id t) i then with_done (negb (done t)) t else t) l.
Proof.
  intros Hagree. destruct (find_by_id i l) as [current|] eqn:F.
  - apply find_by_id_some in F as [Hc Ic]. apply map_ext_in. intros t Ht.
    destruct (strict_eq (id t) i) eqn:E; [|reflexivity].
    apply strict_eq_true_iff in E. now rewrite (Hagree t current Ht Hc E Ic).
  - rewrite <- (map_id l) at 1. apply map_ext_in. intros t Ht.
    apply (find_none _ _ F) in Ht. now rewrite Ht.
Qed.

Lemma step_anonymous (ready : bool) (reply : Remote.Response Remote.Row)
      (err : option Remote.Error) (e : Local.Event) (s : Remote.State) :
  Remote.session s = None ->
  toggle_agrees (forget s) e ->
  forget (Remote.step ready (as_remote reply err e) s) = Local.step e (forget s)
  /\ Remote.session (Remote.step ready (as_remote reply err e) s) = None.
Proof.
  intros S T.
  assert (U : Remote.remoteUser ready s = None).
  { unfold Remote.remoteUser, Remote.user. rewrite S. now destruct ready. }
  assert (K : forall x, Remote.session x = None ->
                        forget x = Local.handle e (forget s) ->
                        forget (Remote.settle ready s x) = Local.step e (forget s)
                        /\ Remote.session (Remote.settle ready s x) = None).
  { intros x Sx Fx. destruct (settle_anonymous ready s x S Sx) as [F N].
    split; [|exact N]. rewrite F, Fx. reflexivity. }
  destruct e; simpl as_remote; unfold Remote.step, Remote.run_async;
    try (apply K; [exact S|reflexivity]).
  - unfold Remote.addTask_begin. rewrite U.
    destruct (negb (truthy (trim (Remote.text s)))) eqn:B; simpl; apply K; try exact S;
      simpl; unfold Local.addTask; simpl; rewrite B; reflexivity.
  - unfold Remote.toggleTask_begin. rewrite U. simpl in T.
    pose proof (toggle_maps_agree i (Remote.tasks s) T) as M.
    destruct (find_by_id i (Remote.tasks s)); simpl; apply K; try exact S;
      simpl; unfold forget, Local.toggleTask, Local.setTasks; simpl; now rewrite <- M.
  - unfold Remote.removeTask_begin. rewrite U. simpl. apply K; [exact S|reflexivity].
  - unfold Remote.clearCompleted_begin. rewrite U. simpl. apply K; [exact S|reflexivity].
  - unfold Remote.saveEditing_begin. rewrite U.
    destruct (negb (truthy (trim (Remote.editingText s)))) eqn:B; simpl; apply K;
      try exact S; simpl; unfold Local.saveEditing; simpl; rewrite B; reflexivity.
Qed.

(** X22. With nobody logged in, the Supabase-backed component is the local
    one: started over the same store and given the same gestures, the two
    go through the same input text, task list, filter, editing state and
    local storage, whether the client is configured or not and whatever
    the backend would reply, as long as the tasks carrying a toggled
    identifier agree on their flag (as they do when identifiers are
    distinct). *)
Theorem anonymous_is_local :
  forall (ready : bool) (reply : Remote.Response Remote.Row) (err : option Remote.Error)
         (ls : LocalStorage) (f0 : jsstring) (els : list Local.Event),
    along_local toggle_agrees els (Local.mount ls f0) ->
    forget (Remote.run ready (map (as_remote reply err) els) (Remote.mount ready ls f0))
    = Local.run els (Local.mount ls f0).
Proof.
  intros ready reply err ls f0 els.
  assert (M : forget (Remote.mount ready ls f0) = Local.mount ls f0
              /\ Remote.session (Remote.mount ready ls f0) = None).
  { unfold Remote.mount, Remote.reconcile. destruct ready; simpl; split; reflexivity. }
  destruct M as [F N]. rewrite <- F. clear F. revert N.
  generalize (Remote.mount ready ls f0).
  induction els as [|e els IH]; simpl; intros s N H; [reflexivity|].
  destruct H as [T A].
  destruct (step_anonymous ready reply err e s N T) as [F' N'].
  rewrite <- F' in A |- *. now apply IH.
Qed.

Lemma anonymous_is_local_witness :
  forget (Remote.run true (map (as_remote insert_failed (Some offline)) local_session)
                     (Remote.mount true empty_storage FILTERS_all))
  = Local.run local_session (Local.mount empty_storage FILTERS_all).
Proof.
  apply (anonymous_is_local true insert_failed (Some offline) empty_storage FILTERS_all
           local_session).
  vm_compute. repeat apply conj; try exact I.
  intros t u Ht Hu It Iu.
  destruct Ht as [<-|[<-|[<-|[]]]]; try discriminate It;
    destruct Hu as [<-|[<-|[<-|[]]]]; try discriminate Iu; reflexivity.
Defined.

(** ** Rollback *)

(** X23. Rollback of an optimistic update. Somebody being logged in, when
    the request of a toggle (of an identifier in the list), a delete, a
    clear or an edit (with a title that is not blank) fails, the task list
    is the one from before the handler and the status area holds the
    failure's message. *)
Theorem optimistic_rollback :
  forall (ready : bool) (i : Ident) (e : Remote.Error) (s : Remote.State),
    Remote.remoteUser ready s <> None ->
    (In i (ids (Remote.tasks s)) ->
     Remote.tasks (Remote.toggleTask ready i (Some e) s) = Remote.tasks s
     /\ Remote.remoteError (Remote.toggleTask ready i (Some e) s) = Remote.message e)
    /\ (Remote.tasks (Remote.removeTask ready i (Some e) s) = Remote.tasks s
        /\ Remote.remoteError (Remote.removeTask ready i (Some e) s) = Remote.message e)
    /\ (Remote.tasks (Remote.clearCompleted ready (Some e) s) = Remote.tasks s
        /\ Remote.remoteError (Remote.clearCompleted ready (Some e) s) = Remote.message e)
    /\ (blank (Remote.editingText s) = false ->
        Remote.tasks (Remote.saveEditing ready i (Some e) s) = Remote.tasks s
        /\ Remote.remoteError (Remote.saveEditing ready i (Some e) s) = Remote.message e).
Proof.
  intros ready i e s U.
  destruct (Remote.remoteUser ready s) as [u|] eqn:Eu; [clear U|now elim U].
  destruct (request_issued ready i s u Eu) as (I1 & I2 & I3 & I4).
  repeat apply conj.
  - intros Hin. specialize (I1 Hin).
    destruct (snd (Remote.toggleTask_begin ready i s)) as [p|] eqn:P; [|now elim I1].
    destruct (rollback_restores ready i e s p) as (R & _). exact (R P).
  - destruct (snd (Remote.removeTask_begin ready i s)) as [p|] eqn:P; [|now elim I2].
    destruct (rollback_restores ready i e s p) as (_ & R & _). exact (proj1 (R P)).
  - destruct (snd (Remote.removeTask_begin ready i s)) as [p|] eqn:P; [|now elim I2].
    destruct (rollback_restores ready i e s p) as (_ & R & _). exact (proj2 (R P)).
  - destruct (snd (Remote.clearCompleted_begin ready s)) as [p|] eqn:P; [|now elim I3].
    destruct (rollback_restores ready i e s p) as (_ & _ & R & _). exact (proj1 (R P)).
  - destruct (snd (Remote.clearCompleted_begin ready s)) as [p|] eqn:P; [|now elim I3].
    destruct (rollback_restores ready i e s p) as (_ & _ & R & _). exact (proj2 (R P)).
  - intros B. specialize (I4 B).
    destruct (snd (Remote.saveEditing_begin ready i s)) as [p|] eqn:P; [|now elim I4].
    destruct (rollback_restores ready i e s p) as (_ & _ & _ & R). exact (R P).
Qed.

Lemma optimistic_rollback_witness :
  Remote.tasks (Remote.removeTask true (INum 2) (Some offline) alice_AB) = [taskA; taskB]
  /\ Remote.remoteError (Remote.removeTask true (INum 2) (Some offline) alice_AB)
     = js "Failed to fetch".
Proof.
  assert (U : Remote.remoteUser true alice_AB <> None) by discriminate.
  exact (proj1 (proj2 (optimistic_rollback true (INum 2) offline alice_AB U))).
Defined.

(** X24. A failure that arrives late undoes more than its own change: the
    list put back is the one the handler started from, so whatever was
    done to the list while the request was in flight is gone too. A
    success changes nothing when it arrives. *)
Theorem late_failure_discards :
  forall (ready : bool) (i : Ident) (e : Remote.Error) (s : Remote.State)
         (p : Remote.Pending) (es : list Remote.Event),
    snd (Remote.toggleTask_begin ready i s) = Some p
    \/ snd (Remote.removeTask_begin ready i s) = Some p
    \/ snd (Remote.clearCompleted_begin ready s) = Some p
    \/ snd (Remote.saveEditing_begin ready i s) = Some p ->
    forall s', Remote.tasks (Remote.mutation_resume p (Some e) (Remote.run ready es s'))
               = Remote.tasks s
               /\ Remote.mutation_resume p None (Remote.run ready es s')
                  = Remote.run ready es s'.
Proof.
  intros ready i e s p es H s'.
  destruct (pending_prevTasks ready i s p) as (H1 & H2 & H3 & H4).
  split; [|reflexivity]. simpl.
  destruct H as [H|[H|[H|H]]]; auto.
Qed.

Lemma late_failure_discards_witness :
  Remote.tasks
    (Remote.mutation_resume
       (Remote.mkPending (Remote.UpdateDone true (INum 1) (js "alice")) [taskA; taskB])
       (Some offline)
       (Remote.run true [Remote.TypeText (js "milk"); Remote.AddTask 5 inserted_milk]
                   (fst (Remote.toggleTask_begin true (INum 1) alice_AB))))
  = [taskA; taskB].
Proof.
  exact (proj1 (late_failure_discards true (INum 1) offline alice_AB
                  (Remote.mkPending (Remote.UpdateDone true (INum 1) (js "alice"))
                                    [taskA; taskB])
                  [Remote.TypeText (js "milk"); Remote.AddTask 5 inserted_milk]
                  (or_introl eq_refl)
                  (fst (Remote.toggleTask_begin true (INum 1) alice_AB)))).
Defined.
